(** * GARF-Demo: the pose-stream state machine and its transformation algebra

    A shallow embedding of [AssembleTask] and [Transformation]
    (the assembly-task module of the demo client) together with the
    properties of the specification that concern them.

    Conventions of the embedding:
    - a JavaScript [number] used as a step, a count or a setting is a [Z];
      a [number] used as a coordinate or a scale lives in an abstract
      carrier [num] with the operations the code applies to it
      (class [Number]); the laws of exact arithmetic are a separate
      class [ExactArithmetic], assumed only where a statement needs them;
      the carrier [float] of module [Doubles] evaluates the same code as
      the program does, in IEEE 754 binary64;
    - steps, counts and totals are integers, as the interface types them
      and as the client's slider sends them; [Z] agrees with the
      program's doubles on them as long as they stay below [2^53];
    - a method that can throw returns a [result];
    - [emit] and [gradioClient.submit] are recorded in an ordered trace of
      [effect]s;
    - an object shared with the caller (the settings of [startAssemble])
      lives in a store indexed by references. *)

From Stdlib Require Import ZArith Ring String Ascii.
From Stdlib Require QArith Qcanon PrimFloat FloatAxioms.
From stdpp Require Import base option list gmap strings.

Local Open Scope Z_scope.

(** ** Numbers *)

Class Number (num : Type) := {
  num_zero : num;
  num_one : num;
  num_add : num -> num -> num;
  num_sub : num -> num -> num;
  num_mul : num -> num -> num;
  num_neg : num -> num;
  num_max : num -> num -> num;
  num_eq_dec :: EqDecision num
}.

Declare Scope num_scope.
Delimit Scope num_scope with num.
Infix "+" := num_add : num_scope.
Infix "-" := num_sub : num_scope.
Infix "*" := num_mul : num_scope.
Notation "- x" := (num_neg x) : num_scope.

(** Exact arithmetic: the operations form a commutative ring. *)
Class ExactArithmetic (num : Type) `{Number num} : Prop :=
  exact_ring :
    ring_theory num_zero num_one num_add num_mul num_sub num_neg (@eq num).

#[global] Instance Z_Number : Number Z := {|
  num_zero := 0; num_one := 1;
  num_add := Z.add; num_sub := Z.sub; num_mul := Z.mul; num_neg := Z.opp;
  num_max := Z.max
|}.

#[global] Instance Z_ExactArithmetic : ExactArithmetic Z := Zth.

(** The rationals, in canonical form so that equal numbers are equal
    terms. *)
Definition Qcmax (x y : Qcanon.Qc) : Qcanon.Qc :=
  if Qcanon.Qclt_le_dec x y then y else x.

#[global] Instance Qc_Number : Number Qcanon.Qc := {|
  num_zero := Qcanon.Q2Qc (QArith_base.Qmake 0 1);
  num_one := Qcanon.Q2Qc (QArith_base.Qmake 1 1);
  num_add := Qcanon.Qcplus; num_sub := Qcanon.Qcminus;
  num_mul := Qcanon.Qcmult; num_neg := Qcanon.Qcopp;
  num_max := Qcmax; num_eq_dec := Qcanon.Qc_eq_dec
|}.

#[global] Instance Qc_ExactArithmetic : ExactArithmetic Qcanon.Qc :=
  Qcanon.Qcrt.

(** The fraction [n/d]. *)
Definition fraction (n : Z) (d : positive) : Qcanon.Qc :=
  Qcanon.Q2Qc (QArith_base.Qmake n d).

(** The program's own numbers: IEEE 754 binary64, each operation rounded
    to the nearest value, ties to even, which is what the kernel's
    primitive floats compute. [Math.max] yields [NaN] if an argument is
    one and takes [+0] for larger than [-0]. Equality of terms, which the
    class asks for, is not [===] ([NaN] and the signed zeros tell them
    apart); the pose algebra of [Transformation], for which the instance
    is there, uses [+], [-], [*] and negation only. *)
Module Doubles.
Import PrimFloat.

Definition double : Type := float.

Definition Math_max (x y : double) : double :=
  if is_nan x || is_nan y then nan
  else if ltb x y then y
  else if ltb y x then x
  else if is_zero x then add x y
  else x.

#[global] Instance double_eq_dec : EqDecision double.
Proof.
  intros x y. destruct (Leibniz.eqb x y) eqn:Heq.
  - left. by apply FloatAxioms.Leibniz.eqb_spec.
  - right. intros Hxy. apply FloatAxioms.Leibniz.eqb_spec in Hxy.
    by rewrite Hxy in Heq.
Defined.

#[global] Instance double_Number : Number double := {|
  num_zero := 0%float; num_one := 1%float;
  num_add := add; num_sub := sub; num_mul := mul; num_neg := opp;
  num_max := Math_max
|}.

End Doubles.

(** ** Results of methods that may throw *)

(** What a [throw] carries: [new Error(message)] thrown by the code itself,
    or the [TypeError] the runtime raises on [undefined.x] and on
    destructuring or spreading [undefined]. *)
Inductive error :=
| Error (message : string)
| TypeError.

Inductive result (A : Type) :=
| Returns (a : A)
| Throws (e : error).
Arguments Returns {A} a.
Arguments Throws {A} e.

#[global] Instance result_bind : MBind result := fun A B k r =>
  match r with
  | Returns a => k a
  | Throws e => Throws e
  end.

(** [array.map(f)] where the callback may throw: elements are visited in
    order with their index, the first exception aborts the whole map. *)
Fixpoint map_throwing_from {A B} (f : A -> nat -> result B) (idx : nat)
    (l : list A) : result (list B) :=
  match l with
  | [] => Returns []
  | a :: l' =>
      b ← f a idx;
      bs ← map_throwing_from f (S idx) l';
      Returns (b :: bs)
  end.

Definition map_throwing {A B} (f : A -> nat -> result B) (l : list A) :=
  map_throwing_from f 0%nat l.

(** [array[i]] for a JavaScript number [i] standing for an integer. *)
Definition js_index {A} (l : list A) (i : Z) : option A :=
  if i <? 0 then None else l !! Z.to_nat i.

(** ** Transformation *)

Section Transformation.
Context {num : Type} `{Number num}.
Local Open Scope num_scope.

Definition Vec3 : Type := num * num * num.
Definition Quat : Type := num * num * num * num.

Record Transformation := mkTransformation {
  translation : Vec3;
  quaternion : Quat
}.

Definition multiplyQuaternions (q1 q2 : Quat) : Quat :=
  let '(w1, x1, y1, z1) := q1 in
  let '(w2, x2, y2, z2) := q2 in
  (w1 * w2 - x1 * x2 - y1 * y2 - z1 * z2,
   w1 * x2 + x1 * w2 + y1 * z2 - z1 * y2,
   w1 * y2 - x1 * z2 + y1 * w2 + z1 * x2,
   w1 * z2 + x1 * y2 - y1 * x2 + z1 * w2).

Definition rotateVector (q : Quat) (v : Vec3) : Vec3 :=
  let '(vx, vy, vz) := v in
  let '(q0, q1, q2, q3) := q in
  let qConjugate : Quat := (q0, - q1, - q2, - q3) in
  let vQuat : Quat := (num_zero, vx, vy, vz) in
  let '(_, r1, r2, r3) :=
    multiplyQuaternions (multiplyQuaternions q vQuat) qConjugate in
  (r1, r2, r3).

Definition inverse (this : Transformation) : Transformation :=
  let '(q0, q1, q2, q3) := quaternion this in
  let qConjugate : Quat := (q0, - q1, - q2, - q3) in
  let '(r0, r1, r2) := rotateVector qConjugate (translation this) in
  let newTranslation : Vec3 := (- r0, - r1, - r2) in
  mkTransformation newTranslation qConjugate.

Definition applyTransformation (this transformation : Transformation)
    : Transformation :=
  let newQuaternion :=
    multiplyQuaternions (quaternion this) (quaternion transformation) in
  let '(r0, r1, r2) :=
    rotateVector (quaternion this) (translation transformation) in
  let '(t0, t1, t2) := translation this in
  let newTranslation : Vec3 := (t0 + r0, t1 + r1, t2 + r2) in
  mkTransformation newTranslation newQuaternion.

(** The transform [new Transformation([0, 0, 0], [1, 0, 0, 0])]. *)
Definition identity : Transformation :=
  mkTransformation (num_zero, num_zero, num_zero)
                   (num_one, num_zero, num_zero, num_zero).

(** Squared norm of a quaternion; a unit quaternion has squared norm one. *)
Definition norm2 (q : Quat) : num :=
  let '(w, x, y, z) := q in w * w + x * x + y * y + z * z.

Definition unit_norm (q : Quat) : Prop := norm2 q = num_one.
End Transformation.

Arguments Vec3 num : clear implicits.
Arguments Quat num : clear implicits.
Arguments Transformation num : clear implicits.

(** ** Strings, as the constructor uses them *)

(** [s.split(sep)] for a one-character separator. *)
Fixpoint split (sep : ascii) (s : string) : list string :=
  match s with
  | EmptyString => [EmptyString]
  | String c s' =>
      if Ascii.eqb c sep then EmptyString :: split sep s'
      else match split sep s' with
           | seg :: segs => String c seg :: segs
           | [] => [String c EmptyString]
           end
  end.

(** [s.endsWith(suffix)]. *)
Definition endsWith (s suffix : string) : bool :=
  let n := String.length s in
  let k := String.length suffix in
  (k <=? n)%nat && String.eqb (substring (n - k) k s) suffix.

(** [parts.join(sep)]. *)
Definition join (sep : string) (parts : list string) : string :=
  String.concat sep parts.

(** ** Data of the assembly task *)

Record File := mkFile { name : string }.

Inductive sampleStrategy_t := uniform | poisson.

(** An optional property of an object: not there at all, there with the
    value [undefined], or there with a value. *)
Inductive optional (A : Type) :=
| absent
| undefined
| present (a : A).
Arguments absent {A}.
Arguments undefined {A}.
Arguments present {A} a.

(** [!p] for an optional string property [p]. *)
Definition falsy (p : optional string) : bool :=
  match p with
  | present s => String.eqb s ""
  | _ => true
  end.

Record AssembleSettings := mkAssembleSettings {
  samplePoints : Z;
  steps : Z;
  seed : Z;
  maxIterations : Z;
  oneStepInit : bool;
  sampleStrategy : sampleStrategy_t;
  loraCheckpoint : optional string;
  ckpt : optional string;
  dataCollection : bool
}.

Definition delete_loraCheckpoint (s : AssembleSettings) : AssembleSettings :=
  {| samplePoints := samplePoints s; steps := steps s; seed := seed s;
     maxIterations := maxIterations s; oneStepInit := oneStepInit s;
     sampleStrategy := sampleStrategy s;
     loraCheckpoint := absent;
     ckpt := ckpt s; dataCollection := dataCollection s |}.

Definition delete_ckpt (s : AssembleSettings) : AssembleSettings :=
  {| samplePoints := samplePoints s; steps := steps s; seed := seed s;
     maxIterations := maxIterations s; oneStepInit := oneStepInit s;
     sampleStrategy := sampleStrategy s;
     loraCheckpoint := loraCheckpoint s;
     ckpt := absent; dataCollection := dataCollection s |}.

(** Settings objects are shared with the caller: they live in a store and
    are passed by reference. *)
Definition ref := positive.
Abbreviation store := (gmap ref AssembleSettings).

Inductive AssembleStatus :=
| INIT | REQUESTED | QUEUED | PROGRESSING | COMPLETED | FAILED.

#[global] Instance AssembleStatus_eq_dec : EqDecision AssembleStatus.
Proof. solve_decision. Defined.

Section Task.
Context {num : Type} `{Number num}.

(** The object [new Transformation(trans, rotation[idx])]: the quaternion
    is read from an array by index and is [undefined] past its end. The
    constructor itself never throws; using the quaternion does. *)
Record TransformationObj := new_Transformation {
  obj_translation : Vec3 num;
  obj_quaternion : option (Quat num)
}.

(** Reading [this.quaternion] as a quaternion (indexing, destructuring
    or spreading it) throws a [TypeError] when it is [undefined]. *)
Definition well_formed (o : TransformationObj) : result (Transformation num) :=
  match obj_quaternion o with
  | Some q => Returns (mkTransformation (obj_translation o) q)
  | None => Throws TypeError
  end.

Definition of_Transformation (t : Transformation num) : TransformationObj :=
  new_Transformation (translation t) (Some (quaternion t)).

(** Events of [AssembleTaskEvent], with their arguments. *)
Inductive event :=
| emit_step (stepIdx totalSteps : Z)
| emit_statusUpdate (status : AssembleStatus) (progress : option (Z * Z))
| emit_meshScale (scale : num)
| emit_recvPointClouds (pointClouds : list (list (Vec3 num)))
| emit_recvFractureSurfaces (fractureSurfaces : list (list (Vec3 num)))
| emit_recvMetrics (metrics : list (string * num)).

(** What the task does to the outside: notify observers, open an
    exchange with the backend. [submit] records the four arguments of
    [gradioClient.submit("/inference", [...])]; the settings are passed
    by reference. *)
Inductive effect :=
| Emit (e : event)
| Submit (endpoint : string) (files : option (list File))
    (paths : list string) (meshType : string) (settings : ref).

(** Payloads ([AssembleMsg]) and envelopes of the exchange. *)
Inductive AssembleMsg :=
| mesh_scale (data : num)
| input (pointclouds : list (list (Vec3 num)))
    (initial_translation : list (Vec3 num))
    (initial_rotation : list (Quat num))
| fracture_segmentation (data : list (list (Vec3 num)))
| transformation (translation : list (Vec3 num))
    (rotation : list (Quat num)) (step iter : Z)
| metrics (data : list (string * num)).

Inductive submission_msg :=
| msg_status (stage : string)
| msg_data (data : list AssembleMsg)
| msg_log.

(** What [setObject] is given: a [THREE.Group] or a
    [THREE.BufferGeometry]; [size] is the extent of its bounding box as
    [Box3.getSize] reports it. *)
Inductive meshObject :=
| Group (size : Vec3 num)
| BufferGeometry (size : Vec3 num).

(** A slot of the [_meshObj] array: [null], a hole left by an assignment
    past the end, or an object. *)
Inductive slot :=
| slot_null
| slot_hole
| slot_obj (o : meshObject).

Record AssembleTask := mkAssembleTask {
  meshesFile : list File;
  meshesFilePathOnServer : list string;
  meshType : string;
  status : AssembleStatus;
  initial_transformations : list TransformationObj;
  originalTransformations : list (list TransformationObj);
  transformations : list (list (Transformation num));
  pointClouds : list (list (Vec3 num));
  fractureSurfaces : list (list (Vec3 num));
  _currentStep : Z;
  _totalSteps : Z;
  _meshObj : list slot;
  meshScale : num;
  pieces : list string
}.
End Task.

Arguments TransformationObj num : clear implicits.
Arguments event num : clear implicits.
Arguments effect num : clear implicits.
Arguments AssembleMsg num : clear implicits.
Arguments submission_msg num : clear implicits.
Arguments meshObject num : clear implicits.
Arguments slot num : clear implicits.
Arguments AssembleTask num : clear implicits.

(** ** Operations of the assembly task *)

Section Operations.
Context {num : Type} `{Number num}.

(** Assignments [this.field = v], one per field the code writes after
    construction. *)
Definition set_status v (this : AssembleTask num) : AssembleTask num :=
  {| meshesFile := meshesFile this;
     meshesFilePathOnServer := meshesFilePathOnServer this;
     meshType := meshType this; status := v;
     initial_transformations := initial_transformations this;
     originalTransformations := originalTransformations this;
     transformations := transformations this;
     pointClouds := pointClouds this;
     fractureSurfaces := fractureSurfaces this;
     _currentStep := _currentStep this; _totalSteps := _totalSteps this;
     _meshObj := _meshObj this; meshScale := meshScale this;
     pieces := pieces this |}.

Definition set_initial_transformations v (this : AssembleTask num)
    : AssembleTask num :=
  {| meshesFile := meshesFile this;
     meshesFilePathOnServer := meshesFilePathOnServer this;
     meshType := meshType this; status := status this;
     initial_transformations := v;
     originalTransformations := originalTransformations this;
     transformations := transformations this;
     pointClouds := pointClouds this;
     fractureSurfaces := fractureSurfaces this;
     _currentStep := _currentStep this; _totalSteps := _totalSteps this;
     _meshObj := _meshObj this; meshScale := meshScale this;
     pieces := pieces this |}.

Definition set_originalTransformations v (this : AssembleTask num)
    : AssembleTask num :=
  {| meshesFile := meshesFile this;
     meshesFilePathOnServer := meshesFilePathOnServer this;
     meshType := meshType this; status := status this;
     initial_transformations := initial_transformations this;
     originalTransformations := v;
     transformations := transformations this;
     pointClouds := pointClouds this;
     fractureSurfaces := fractureSurfaces this;
     _currentStep := _currentStep this; _totalSteps := _totalSteps this;
     _meshObj := _meshObj this; meshScale := meshScale this;
     pieces := pieces this |}.

Definition set_transformations v (this : AssembleTask num) : AssembleTask num :=
  {| meshesFile := meshesFile this;
     meshesFilePathOnServer := meshesFilePathOnServer this;
     meshType := meshType this; status := status this;
     initial_transformations := initial_transformations this;
     originalTransformations := originalTransformations this;
     transformations := v; pointClouds := pointClouds this;
     fractureSurfaces := fractureSurfaces this;
     _currentStep := _currentStep this; _totalSteps := _totalSteps this;
     _meshObj := _meshObj this; meshScale := meshScale this;
     pieces := pieces this |}.

Definition set_pointClouds v (this : AssembleTask num) : AssembleTask num :=
  {| meshesFile := meshesFile this;
     meshesFilePathOnServer := meshesFilePathOnServer this;
     meshType := meshType this; status := status this;
     initial_transformations := initial_transformations this;
     originalTransformations := originalTransformations this;
     transformations := transformations this; pointClouds := v;
     fractureSurfaces := fractureSurfaces this;
     _currentStep := _currentStep this; _totalSteps := _totalSteps this;
     _meshObj := _meshObj this; meshScale := meshScale this;
     pieces := pieces this |}.

Definition set_fractureSurfaces v (this : AssembleTask num)
    : AssembleTask num :=
  {| meshesFile := meshesFile this;
     meshesFilePathOnServer := meshesFilePathOnServer this;
     meshType := meshType this; status := status this;
     initial_transformations := initial_transformations this;
     originalTransformations := originalTransformations this;
     transformations := transformations this;
     pointClouds := pointClouds this; fractureSurfaces := v;
     _currentStep := _currentStep this; _totalSteps := _totalSteps this;
     _meshObj := _meshObj this; meshScale := meshScale this;
     pieces := pieces this |}.

Definition set__currentStep v (this : AssembleTask num) : AssembleTask num :=
  {| meshesFile := meshesFile this;
     meshesFilePathOnServer := meshesFilePathOnServer this;
     meshType := meshType this; status := status this;
     initial_transformations := initial_transformations this;
     originalTransformations := originalTransformations this;
     transformations := transformations this;
     pointClouds := pointClouds this;
     fractureSurfaces := fractureSurfaces this; _currentStep := v;
     _totalSteps := _totalSteps this; _meshObj := _meshObj this;
     meshScale := meshScale this; pieces := pieces this |}.

Definition set__totalSteps v (this : AssembleTask num) : AssembleTask num :=
  {| meshesFile := meshesFile this;
     meshesFilePathOnServer := meshesFilePathOnServer this;
     meshType := meshType this; status := status this;
     initial_transformations := initial_transformations this;
     originalTransformations := originalTransformations this;
     transformations := transformations this;
     pointClouds := pointClouds this;
     fractureSurfaces := fractureSurfaces this;
     _currentStep := _currentStep this; _totalSteps := v;
     _meshObj := _meshObj this; meshScale := meshScale this;
     pieces := pieces this |}.

Definition set__meshObj v (this : AssembleTask num) : AssembleTask num :=
  {| meshesFile := meshesFile this;
     meshesFilePathOnServer := meshesFilePathOnServer this;
     meshType := meshType this; status := status this;
     initial_transformations := initial_transformations this;
     originalTransformations := originalTransformations this;
     transformations := transformations this;
     pointClouds := pointClouds this;
     fractureSurfaces := fractureSurfaces this;
     _currentStep := _currentStep this; _totalSteps := _totalSteps this;
     _meshObj := v; meshScale := meshScale this; pieces := pieces this |}.

Definition set_meshScale v (this : AssembleTask num) : AssembleTask num :=
  {| meshesFile := meshesFile this;
     meshesFilePathOnServer := meshesFilePathOnServer this;
     meshType := meshType this; status := status this;
     initial_transformations := initial_transformations this;
     originalTransformations := originalTransformations this;
     transformations := transformations this;
     pointClouds := pointClouds this;
     fractureSurfaces := fractureSurfaces this;
     _currentStep := _currentStep this; _totalSteps := _totalSteps this;
     _meshObj := _meshObj this; meshScale := v; pieces := pieces this |}.
(** The messages of the three [Error]s the code throws, under the names
    the specification gives them. *)
Definition AlreadyRunningError : error := Error "Task has already started".
Definition InvalidStepError : error := Error "Invalid step index".
Definition InvalidInputError (e : error) : Prop :=
  e = Error "At least two meshes are required" \/
  e = Error "Only .obj and .ply files are supported" \/
  e = Error "All meshes must be of the same type".

(** *** constructor *)

Definition AssembleTask_new (meshesFile : list File)
    (meshesFilePathOnServer : list string) : result (AssembleTask num) :=
  if (length meshesFile <? 2)%nat then
    Throws (Error "At least two meshes are required")
  else
    let meshType :=
      default ""%string
        (last (split "." (default ""%string (name <$> meshesFile !! 0%nat)))) in
    if negb (bool_decide (meshType ∈ ["obj"; "ply"]%string)) then
      Throws (Error "Only .obj and .ply files are supported")
    else if negb (forallb
                    (fun meshesFile => endsWith (name meshesFile) meshType)
                    meshesFile) then
      Throws (Error "All meshes must be of the same type")
    else
      Returns
        {| meshesFile := meshesFile;
           meshesFilePathOnServer := meshesFilePathOnServer;
           meshType := meshType;
           status := INIT;
           initial_transformations := [];
           originalTransformations := [];
           transformations := [];
           pointClouds := [];
           fractureSurfaces := [];
           _currentStep := -2;
           _totalSteps := 0;
           _meshObj := replicate (length meshesFile) slot_null;
           meshScale := num_one;
           pieces := name <$> meshesFile |}.

(** *** startAssemble, up to the opening of the exchange *)

Definition in_flight (s : AssembleStatus) : bool :=
  bool_decide (s = REQUESTED) || bool_decide (s = QUEUED)
  || bool_decide (s = PROGRESSING).

Definition totalSteps_of (settings : AssembleSettings) : Z :=
  steps settings * maxIterations settings
  + (if oneStepInit settings then 1 else 0).

(** The two conditional [delete]s on the settings object. *)
Definition drop_empty_checkpoints (s : AssembleSettings) : AssembleSettings :=
  let s := if falsy (loraCheckpoint s) then delete_loraCheckpoint s else s in
  if falsy (ckpt s) then delete_ckpt s else s.

(** A call leaves the task in some state, has emitted some events, and
    has thrown or not. *)
Definition outcome : Type :=
  AssembleTask num * list (event num) * option error.

(** The synchronous part of [startAssemble(settings)]: the guard, the
    deletions on the caller's settings object, the reset of the task, the
    two notifications and the one call of [gradioClient.submit]. A
    reference to no object stands for [undefined], on which the first
    property read throws. *)
Definition startAssemble_open (settings : ref) (this : AssembleTask num)
    (σ : store)
    : AssembleTask num * store * list (effect num) * option error :=
  if in_flight (status this) then (this, σ, [], Some AlreadyRunningError)
  else
    match σ !! settings with
    | None => (this, σ, [], Some TypeError)
    | Some s =>
        let s' := drop_empty_checkpoints s in
        let σ' := <[settings := s']> σ in
        let this := set_status REQUESTED this in
        let this := set_transformations [] this in
        let this := set_originalTransformations [] this in
        let this := set_initial_transformations [] this in
        let this := set__currentStep (-2) this in
        let this := set__totalSteps (totalSteps_of s') this in
        let submission :=
          if (length (meshesFilePathOnServer this)
              =? length (meshesFile this))%nat
          then Submit "/inference" None (meshesFilePathOnServer this)
                 (meshType this) settings
          else Submit "/inference" (Some (meshesFile this)) []
                 (meshType this) settings in
        (this, σ',
         [Emit (emit_statusUpdate REQUESTED None);
          Emit (emit_step (-2) (_totalSteps this));
          submission],
         None)
    end.

(** *** the body of the [for await] loop *)

(** [case "status"]: four independent tests of [msg.stage]. *)
Definition handle_status (stage : string) (this : AssembleTask num)
    : AssembleTask num * list (event num) :=
  let '(this, ev1) :=
    if String.eqb stage "pending"
    then (set_status QUEUED this, [emit_statusUpdate QUEUED None])
    else (this, []) in
  let '(this, ev2) :=
    if String.eqb stage "generating"
    then (set_status PROGRESSING this,
          [emit_statusUpdate PROGRESSING
             (Some (_currentStep this + 1, _totalSteps this))])
    else (this, []) in
  let '(this, ev3) :=
    if String.eqb stage "error"
    then (set_status FAILED this, [emit_statusUpdate FAILED None])
    else (this, []) in
  let '(this, ev4) :=
    if String.eqb stage "complete"
    then (set_status COMPLETED this, [emit_statusUpdate COMPLETED None])
    else (this, []) in
  (this, ev1 ++ ev2 ++ ev3 ++ ev4).

(** The raw pose of fragment [idx]:
    [new Transformation(trans, data.data.rotation[idx])]. *)
Definition raw_pose (rotation : list (Quat num)) (idx : nat)
    (trans : Vec3 num) : TransformationObj num :=
  new_Transformation trans (rotation !! idx).

(** The callback of the first [map] of [case "transformation"]: the raw
    pose composed with the inverse of the fragment's initial pose.
    [this.initial_transformations[idx]] may be [undefined], and either
    quaternion may be. *)
Definition normalized_pose (initial : list (TransformationObj num))
    (rotation : list (Quat num)) (trans : Vec3 num) (idx : nat)
    : result (Transformation num) :=
  let raw := raw_pose rotation idx trans in
  match initial !! idx with
  | None => Throws TypeError
  | Some init =>
      init ← well_formed init;
      raw ← well_formed raw;
      Returns (applyTransformation raw (inverse init))
  end.

(** [case "data"], by the type of the payload. *)
Definition handle_payload (data : AssembleMsg num) (this : AssembleTask num)
    : outcome :=
  match data with
  | mesh_scale d =>
      if decide (d <> meshScale this)
      then (set_meshScale d this, [emit_meshScale d], None)
      else (this, [], None)
  | input pointclouds initial_translation initial_rotation =>
      let this :=
        set_initial_transformations
          (imap (raw_pose initial_rotation) initial_translation) this in
      let this := set_pointClouds pointclouds this in
      let this := set__currentStep (-1) this in
      (this, [emit_recvPointClouds pointclouds;
              emit_step (-1) (_totalSteps this)], None)
  | fracture_segmentation d =>
      if (length (transformations this) <=? 5)%nat
      then (set_fractureSurfaces d this, [emit_recvFractureSurfaces d], None)
      else (this, [], None)
  | transformation translation rotation _ _ =>
      match
        map_throwing
          (normalized_pose (initial_transformations this) rotation)
          translation
      with
      | Throws e => (this, [], Some e)
      | Returns normalized =>
          let originalTransformation :=
            imap (raw_pose rotation) translation in
          let this :=
            set_transformations (transformations this ++ [normalized])
              this in
          let this :=
            set_originalTransformations
              (originalTransformations this ++ [originalTransformation])
              this in
          let this :=
            set__currentStep (Z.of_nat (length (transformations this)) - 1)
              this in
          (this,
           [emit_step (Z.of_nat (length (transformations this)) - 1)
              (_totalSteps this)],
           None)
      end
  | metrics d => (this, [emit_recvMetrics d], None)
  end.

(** One message of the exchange. [msg.data[0]] of an empty array is
    [undefined], whose [type] cannot be read. *)
Definition handle_msg (msg : submission_msg num) (this : AssembleTask num)
    : outcome :=
  match msg with
  | msg_status stage =>
      let '(this, evs) := handle_status stage this in (this, evs, None)
  | msg_data data =>
      match data !! 0%nat with
      | None => (this, [], Some TypeError)
      | Some d => handle_payload d this
      end
  | msg_log => (this, [], None)
  end.

(** *** currentStep *)

Definition currentStep (this : AssembleTask num) : Z := _currentStep this.

Definition set_currentStep (step : Z) (this : AssembleTask num) : outcome :=
  if (step <? -2) || (step >=? Z.of_nat (length (transformations this))) then
    (this, [], Some InvalidStepError)
  else
    let this := set__currentStep step this in
    (this, [emit_step step (_totalSteps this)], None).

(** *** queries *)

Definition getFractureSurface (index : Z) (this : AssembleTask num)
    : list (Vec3 num) :=
  default [] (js_index (fractureSurfaces this) index).

Definition getPointCloud (index : Z) (this : AssembleTask num)
    : list (Vec3 num) :=
  default [] (js_index (pointClouds this) index).

(** [getTransformation(index, step?)]; [None] for the result stands for
    [undefined], which an array read past its end yields. *)
Definition getTransformation (index : Z) (step : option Z)
    (this : AssembleTask num) : result (option (Transformation num)) :=
  let step := default (currentStep this) step in
  if step =? -2 then Returns (Some identity)
  else if step =? -1 then
    match js_index (initial_transformations this) index with
    | None => Throws TypeError
    | Some init => init ← well_formed init; Returns (Some (inverse init))
    end
  else
    match js_index (transformations this) step with
    | None => Throws TypeError
    | Some row => Returns (js_index row index)
    end.

Definition getTransformations (index : Z) (this : AssembleTask num)
    : list (option (Transformation num)) :=
  (fun transformation => js_index transformation index)
    <$> transformations this.

(** *** setObject *)

(** [array[i] = v]: in range the slot is replaced, past the end the array
    grows and the slots in between are holes. *)
Definition array_assign {A} (hole : A) (l : list A) (i : nat) (v : A)
    : list A :=
  if (i <? length l)%nat then <[i := v]> l
  else l ++ replicate (i - length l) hole ++ [v].

Definition not_null (s : slot num) : bool :=
  match s with slot_null => false | _ => true end.

(** One round of the loop over [_meshObj]: both branches take the largest
    side of the bounding box. *)
Definition grow_maxSize (maxSize : num) (s : slot num) : num :=
  match s with
  | slot_obj (Group (x, y, z)) => num_max maxSize (num_max x (num_max y z))
  | slot_obj (BufferGeometry (x, y, z)) =>
      num_max maxSize (num_max x (num_max y z))
  | _ => maxSize
  end.

Definition setObject (index : nat) (obj : meshObject num)
    (this : AssembleTask num) : outcome :=
  let this :=
    set__meshObj (array_assign slot_hole (_meshObj this) index (slot_obj obj))
      this in
  if forallb not_null (_meshObj this) then
    let maxSize := fold_left grow_maxSize (_meshObj this) num_one in
    let this := set_meshScale maxSize this in
    (this, [emit_meshScale (meshScale this)], None)
  else (this, [], None).

(** *** startAssemble, whole *)

(** The loop over the messages of the exchange; it ends with the
    exchange or with the first message that throws. *)
Fixpoint consume (submission : list (submission_msg num))
    (this : AssembleTask num) : outcome :=
  match submission with
  | [] => (this, [], None)
  | msg :: rest =>
      match handle_msg msg this with
      | (this, evs, Some e) => (this, evs, Some e)
      | (this, evs, None) =>
          let '(final, later, e) := consume rest this in
          (final, evs ++ later, e)
      end
  end.

(** [startAssemble(settings)] against an exchange that delivers the
    messages [submission] and ends. *)
Definition startAssemble (settings : ref)
    (submission : list (submission_msg num))
    (this : AssembleTask num) (σ : store)
    : AssembleTask num * store * list (effect num) * option error :=
  match startAssemble_open settings this σ with
  | (this, σ, trace, Some e) => (this, σ, trace, Some e)
  | (this, σ, trace, None) =>
      let '(final, evs, e) := consume submission this in
      (final, σ, trace ++ (Emit <$> evs), e)
  end.

End Operations.

(** ** Export *)

(** The object [exportJson] hands to [JSON.stringify]; the keys are those
    of the document. *)
Module ExportData.
Record t (num : Type) := mk {
  name : string;
  num_parts : nat;
  gt_trans_rots : list (list num);
  pred_trans_rots : list (list (list num));
  removal_pieces : string;
  redundant_pieces : string;
  pieces : string;
  mesh_scale : num;
  pointclouds : list (list (Vec3 num))
}.
Arguments mk {num}.
Arguments name {num}.
Arguments num_parts {num}.
Arguments gt_trans_rots {num}.
Arguments pred_trans_rots {num}.
Arguments removal_pieces {num}.
Arguments redundant_pieces {num}.
Arguments pieces {num}.
Arguments mesh_scale {num}.
Arguments pointclouds {num}.
End ExportData.

Section ExportOperation.
Context {num : Type} `{Number num}.

(** [[...trans.translation, ...trans.quaternion]]: spreading an
    [undefined] quaternion throws. *)
Definition flatten (trans : TransformationObj num) : result (list num) :=
  match obj_quaternion trans with
  | None => Throws TypeError
  | Some (qw, qx, qy, qz) =>
      let '(tx, ty, tz) := obj_translation trans in
      Returns [tx; ty; tz; qw; qx; qy; qz]
  end.

(** [exportJson(name)], up to the serialisation of the object. The task
    is returned as the call leaves it. *)
Definition exportJson (name : string) (this : AssembleTask num)
    : result (ExportData.t num) * AssembleTask num :=
  (gt ← map_throwing (fun trans _ => flatten trans)
         (initial_transformations this);
   pred ← map_throwing
            (fun allPartTrans _ =>
               map_throwing (fun trans _ => flatten trans) allPartTrans)
            (originalTransformations this);
   Returns
     {| ExportData.name := name;
        ExportData.num_parts := length (meshesFile this);
        ExportData.gt_trans_rots := gt;
        ExportData.pred_trans_rots := pred;
        ExportData.removal_pieces := "";
        ExportData.redundant_pieces := "";
        ExportData.pieces := join "," (pieces this);
        ExportData.mesh_scale := meshScale this;
        ExportData.pointclouds := pointClouds this |},
   this).

End ExportOperation.

(** ** Vocabulary of the properties *)

(** A run is under way. *)
Definition running (s : AssembleStatus) : Prop :=
  s = REQUESTED \/ s = QUEUED \/ s = PROGRESSING.

Definition is_Submit {num} (e : effect num) : bool :=
  match e with Submit _ _ _ _ _ => true | Emit _ => false end.

(** The extension of a file name, as the constructor reads it off the
    first file: what follows the last dot. *)
Definition extension (name : string) : string :=
  default ""%string (last (split "." name)).

(** The seven numbers [[tx, ty, tz, qw, qx, qy, qz]] of a pose. *)
Definition pose7 {num} (t : Transformation num) : list num :=
  let '(tx, ty, tz) := translation t in
  let '(qw, qx, qy, qz) := quaternion t in
  [tx; ty; tz; qw; qx; qy; qz].

(** The two histories run in parallel: as many steps in one as in the
    other, and as many fragments in a step of one as in the same step of
    the other. *)
Definition history_aligned {num} (this : AssembleTask num) : Prop :=
  Forall2 (fun normalized original => length normalized = length original)
    (transformations this) (originalTransformations this).

(** Both histories of [this'] are those of [this]. *)
Definition same_history {num} (this this' : AssembleTask num) : Prop :=
  transformations this' = transformations this /\
  originalTransformations this' = originalTransformations this.

(** What the constructor fixes: the files, their format and their
    names. *)
Definition same_files {num} (this this' : AssembleTask num) : Prop :=
  meshesFile this' = meshesFile this /\
  meshesFilePathOnServer this' = meshesFilePathOnServer this /\
  meshType this' = meshType this /\
  pieces this' = pieces this.

(** The operations that act on a task once it is constructed. A call of
    [startAssemble] is its synchronous part followed, one at a time and
    possibly interleaved with other calls, by the deliveries of the
    exchange. The queries are functions of the task and change nothing. *)
Inductive operation (num : Type) :=
| call_startAssemble (settings : ref)
| deliver (msg : submission_msg num)
| assign_currentStep (step : Z)
| call_setObject (index : nat) (obj : meshObject num)
| call_exportJson (name : string).
Arguments call_startAssemble {num}.
Arguments deliver {num}.
Arguments assign_currentStep {num}.
Arguments call_setObject {num}.
Arguments call_exportJson {num}.

Definition perform {num} `{Number num} (o : operation num)
    (w : AssembleTask num * store) : AssembleTask num * store :=
  let '(this, σ) := w in
  match o with
  | call_startAssemble settings =>
      let '(this, σ, _, _) := startAssemble_open settings this σ in (this, σ)
  | deliver msg => ((handle_msg msg this).1.1, σ)
  | assign_currentStep step => ((set_currentStep step this).1.1, σ)
  | call_setObject index obj => ((setObject index obj this).1.1, σ)
  | call_exportJson name => ((exportJson name this).2, σ)
  end.

(** A message as the backend is meant to send it to a task of [n]
    fragments: an "input" payload has a rotation for each of its
    translations, a "transformation" payload has a translation for each
    fragment. *)
Definition conforming {num} (n : nat) (msg : submission_msg num) : Prop :=
  match msg with
  | msg_data (input _ initial_translation initial_rotation :: _) =>
      (length initial_translation <= length initial_rotation)%nat
  | msg_data (transformation translation _ _ _ :: _) => length translation = n
  | _ => True
  end.

Definition conforming_op {num} (n : nat) (o : operation num) : Prop :=
  match o with
  | deliver msg => conforming n msg
  | _ => True
  end.

Definition has_quaternion {num} (o : TransformationObj num) : Prop :=
  is_Some (obj_quaternion o).

(** The poses a task holds are as their type says, with one pose for
    each fragment at every recorded step. *)
Definition well_recorded {num} (this : AssembleTask num) : Prop :=
  Forall has_quaternion (initial_transformations this) /\
  Forall (Forall has_quaternion) (originalTransformations this) /\
  Forall (fun recorded => length recorded = length (meshesFile this))
    (originalTransformations this).

(** ** A small scenario over the integers

    Two [.obj] fragments, a run of two optimisation steps. *)
Module Scenario.

Definition files : list File := [mkFile "a.obj"; mkFile "b.obj"].

Definition fresh : AssembleTask Z :=
  {| meshesFile := files;
     meshesFilePathOnServer := [];
     meshType := "obj";
     status := INIT;
     initial_transformations := [];
     originalTransformations := [];
     transformations := [];
     pointClouds := [];
     fractureSurfaces := [];
     _currentStep := -2;
     _totalSteps := 0;
     _meshObj := [slot_null; slot_null];
     meshScale := 1;
     pieces := ["a.obj"; "b.obj"]%string |}.

(** Settings with an empty [loraCheckpoint] and no [ckpt]. *)
Definition settings : AssembleSettings :=
  {| samplePoints := 5000; steps := 20; seed := 1; maxIterations := 6;
     oneStepInit := true; sampleStrategy := uniform;
     loraCheckpoint := present ""; ckpt := absent;
     dataCollection := false |}.

(** Settings with a [loraCheckpoint] and an empty [ckpt]. *)
Definition settings2 : AssembleSettings :=
  {| samplePoints := 5000; steps := 20; seed := 1; maxIterations := 6;
     oneStepInit := false; sampleStrategy := poisson;
     loraCheckpoint := present "lora.ckpt"; ckpt := present "";
     dataCollection := false |}.

Definition σ0 : store := {[ 1%positive := settings; 2%positive := settings2 ]}.

Definition initial : list (Transformation Z) :=
  [mkTransformation (0, 0, 0) (1, 0, 0, 0);
   mkTransformation (1, 0, 0) (0, 1, 0, 0)].

Definition exchange : list (submission_msg Z) :=
  [msg_status "pending"; msg_status "generating";
   msg_data [input [[(0, 0, 0)]; [(1, 1, 1)]]
               (translation <$> initial) (quaternion <$> initial)];
   msg_data [transformation [(1, 2, 3); (4, 5, 6)]
               [(0, 0, 1, 0); (1, 0, 0, 0)] 0 0];
   msg_data [transformation [(2, 2, 2); (3, 3, 3)]
               [(0, 0, 0, 1); (0, 1, 0, 0)] 1 0];
   msg_status "complete"].

(** The task right after the synchronous part of a first
    [startAssemble]. *)
Definition requested : AssembleTask Z :=
  (startAssemble_open 1%positive fresh σ0).1.1.1.

(** The caller's objects after that first call. *)
Definition σ1 : store := (startAssemble_open 1%positive fresh σ0).1.1.2.

(** The task after the input message of the exchange. *)
Definition with_input : AssembleTask Z :=
  (consume (take 3 exchange) requested).1.1.

(** The task after six further steps, all alike. *)
Definition six_steps : AssembleTask Z :=
  (consume
     (replicate 6
        (msg_data [transformation [(1, 2, 3); (4, 5, 6)]
                     [(0, 0, 1, 0); (1, 0, 0, 0)] 0 0]))
     with_input).1.1.

(** A pose over the rationals: a third of a turn about the diagonal,
    then a shift. *)
Definition third_turn : Transformation Qcanon.Qc :=
  mkTransformation (fraction 3 1, fraction (-4) 3, fraction 5 7)
    (fraction 1 2, fraction 1 2, fraction 1 2, fraction 1 2).

(** The task at the end of the exchange. *)
Definition completed : AssembleTask Z :=
  (startAssemble 1%positive exchange fresh σ0).1.1.1.

(** A step for which the backend reports the pose of the first fragment
    only, and a run that receives it after the input message. *)
Definition short_step : submission_msg Z :=
  msg_data [transformation [(1, 2, 3)] [(0, 0, 1, 0)] 0 0].

Definition short_run : list (operation Z) :=
  call_startAssemble 1%positive
  :: (deliver <$> take 3 exchange ++ [short_step]).

End Scenario.

(** ** Poses in floating point *)
Module Tolerance.
Import PrimFloat.
#[local] Set Warnings "-inexact-float".
#[local] Open Scope float_scope.







End Tolerance.

(** ** Further vocabulary *)

(** Squared length of a vector. *)
Definition length2 {num} `{Number num} (v : Vec3 num) : num :=
  let '(x, y, z) := v in (x * x + y * y + z * z)%num.

(** The cursor is in its domain: from [-2] to the last recorded step. *)
Definition cursor_in_domain {num} (this : AssembleTask num) : Prop :=
  -2 <= _currentStep this <= Z.of_nat (length (transformations this)) - 1.

(** The index carried by the last [step] event of a trace, if there is
    one, and the status carried by its last [statusUpdate] event. *)
Definition step_index {num} (e : event num) : option Z :=
  match e with emit_step stepIdx _ => Some stepIdx | _ => None end.

Definition announced_status {num} (e : event num) : option AssembleStatus :=
  match e with emit_statusUpdate status _ => Some status | _ => None end.

Definition last_step {num} (evs : list (event num)) : option Z :=
  last (omap step_index evs).

Definition last_status {num} (evs : list (event num)) : option AssembleStatus :=
  last (omap announced_status evs).

(** The total an event carries, for the events that carry one. *)
Definition announced_total {num} (e : event num) : option Z :=
  match e with
  | emit_step _ totalSteps => Some totalSteps
  | emit_statusUpdate _ (Some (_, totalSteps)) => Some totalSteps
  | _ => None
  end.

Definition is_recvFractureSurfaces {num} (e : event num) : bool :=
  match e with emit_recvFractureSurfaces _ => true | _ => false end.

(** The events of an effect trace. *)
Definition emitted {num} (trace : list (effect num)) : list (event num) :=
  omap (fun e => match e with Emit ev => Some ev | _ => None end) trace.


(** What the events of a call say about the task it leaves: the cursor is
    the index last announced, the status the status last announced, and
    what was not announced has not changed. *)
Definition in_step {num} (before after : AssembleTask num)
    (evs : list (event num)) : Prop :=
  _currentStep after = default (_currentStep before) (last_step evs) /\
  status after = default (status before) (last_status evs).

(** The statuses a message of the exchange can bring. *)
Definition message_status (s : AssembleStatus) : Prop :=
  s = QUEUED \/ s = PROGRESSING \/ s = FAILED \/ s = COMPLETED.

(** An event that announces the end of a run. *)
Definition announces_end {num} (ev : event num) : Prop :=
  announced_status ev = Some COMPLETED \/ announced_status ev = Some FAILED.

(** Every total the events carry is [total]. *)
Definition totals_are {num} (total : Z) (evs : list (event num)) : Prop :=
  Forall (fun ev => forall t, announced_total ev = Some t -> t = total) evs.

(** ** Order on numbers, for [Math.max] *)

Class OrderedNumber (num : Type) `{Number num} := {
  num_le : num -> num -> Prop;
  num_le_refl : forall a, num_le a a;
  num_le_trans : forall a b c, num_le a b -> num_le b c -> num_le a c;
  num_max_ub_l : forall a b, num_le a (num_max a b);
  num_max_ub_r : forall a b, num_le b (num_max a b);
  num_max_either : forall a b, num_max a b = a \/ num_max a b = b
}.

#[global] Program Instance Z_OrderedNumber : OrderedNumber Z := {|
  num_le := Z.le
|}.
Next Obligation. intros a. reflexivity. Qed.
Next Obligation. intros a b c. apply Z.le_trans. Qed.
Next Obligation. intros a b. apply Z.le_max_l. Qed.
Next Obligation. intros a b. apply Z.le_max_r. Qed.
Next Obligation.
  intros a b. cbn. destruct (Z.max_spec a b) as [[_ ->]|[_ ->]]; auto.
Qed.

#[global] Program Instance Qc_OrderedNumber : OrderedNumber Qcanon.Qc := {|
  num_le := Qcanon.Qcle
|}.
Next Obligation. intros a. apply Qcanon.Qcle_refl. Qed.
Next Obligation. intros a b c. apply Qcanon.Qcle_trans. Qed.
Next Obligation.
  intros a b. cbn. unfold Qcmax.
  destruct (Qcanon.Qclt_le_dec a b);
    [by apply Qcanon.Qclt_le_weak | apply Qcanon.Qcle_refl].
Qed.
Next Obligation.
  intros a b. cbn. unfold Qcmax.
  destruct (Qcanon.Qclt_le_dec a b); [apply Qcanon.Qcle_refl | done].
Qed.
Next Obligation.
  intros a b. cbn. unfold Qcmax. destruct (Qcanon.Qclt_le_dec a b); auto.
Qed.


(** The fragments whose object has been given by the calls of [setObject]
    among [ops]. *)
Definition loaded {num} (ops : list (operation num)) : list nat :=
  omap (fun o => match o with
                 | call_setObject index _ => Some index
                 | _ => None
                 end) ops.

(** The slots of a task of [n] fragments after objects were given for the
    fragments [L]: [n] slots, [null] exactly where no object was given. *)
Definition slots_filled {num} (n : nat) (L : list nat)
    (this : AssembleTask num) : Prop :=
  length (_meshObj this) = n /\
  forall i, (i < n)%nat -> _meshObj this !! i = Some slot_null <-> i ∉ L.

(** ** Colours of the fragments *)

Definition COLORS : list Z :=
  [0xfe8a18; 0xc91a09; 0x237841; 0x0055bf; 0xf2705e; 0xfc97ac; 0x4b9f4a;
   0x008f9b; 0xf5cd2f; 0x4354a3].

(** What [getMesh(index)] returns, but for the reference to the task
    itself: [blob] is the file the object URL is made for, [color] is
    [COLORS[index % COLORS.length]], with the remainder of JavaScript,
    which has the sign of [index]. *)
Module MeshProps.
Record t := mk {
  blob : File;
  color : option Z;
  meshType : string;
  idx : Z
}.
End MeshProps.

(** [getMesh(index)]. The object URL is made first, and
    [URL.createObjectURL] throws a [TypeError] when it is given
    [undefined], which is what [meshesFile[index]] is outside the
    files. *)
Definition getMesh {num} (index : Z) (this : AssembleTask num)
    : result MeshProps.t :=
  match js_index (meshesFile this) index with
  | None => Throws TypeError
  | Some file =>
      Returns
        {| MeshProps.blob := file;
           MeshProps.color :=
             js_index COLORS (Z.rem index (Z.of_nat (length COLORS)));
           MeshProps.meshType := meshType this;
           MeshProps.idx := index |}
  end.

(** The getter [meshesList], and the meshes the assembly scene asks
    for: [task.meshesList.map((_, index) => task.getMesh(index))]. *)
Definition meshesList {num} (this : AssembleTask num) : list File :=
  meshesFile this.

Definition meshes {num} (this : AssembleTask num)
    : result (list MeshProps.t) :=
  map_throwing (fun _ index => getMesh (Z.of_nat index) this)
    (meshesList this).

(** ** The callers in the application *)

(** The path on the server of a gallery file,
    [`gallery/${folder}/${f}`]: [assembleFromGallery] constructs its task
    with one such path for each file, an upload with none. *)
Definition gallery_path (folder f : string) : string :=
  ("gallery/" +:+ folder +:+ "/" +:+ f)%string.

(** The consent flag kept in session storage, and the flag sent with the
    settings: [allowCollection ?? true]. *)
Definition deserializer (value : string) : bool :=
  if String.eqb value "false" then false else true.

Definition serializer (value : option bool) : string :=
  if bool_decide (value = Some false) then "false" else "true".

Definition dataCollection_sent (allowCollection : option bool) : bool :=
  default true allowCollection.

(** The dataset tabs of the gallery: the [reduce] over the entities that
    pushes each dataset not yet included; [entities] lists the dataset of
    each entity, in the order of [Object.values]. *)
Definition datasets (entities : list string) : list string :=
  foldl (fun acc dataset =>
           if bool_decide (dataset ∈ acc) then acc else acc ++ [dataset])
    [] entities.

(** The trail of a fragment, [updateTrailPoints]: the transformations up
    to the cursor, each turned into a point by [position] (the rotation of
    the centroid is left to the rendering library); an [undefined] entry
    throws when its quaternion is read. The trail is drawn when it has
    more than one point and [showTrail] is set. *)
Definition updateTrailPoints {num A} (position : Transformation num -> A)
    (idx : Z) (this : AssembleTask num) : result (list A) :=
  let stepIdx := currentStep this in
  let transformation := getTransformations idx this in
  map_throwing
    (fun t _ =>
       match t with
       | Some t => Returns (position t)
       | None => Throws TypeError
       end)
    (take (Z.to_nat (Z.abs (stepIdx + 1))) transformation).

Definition trail_drawn {A} (trailPoints : list A) (showTrail : bool) : bool :=
  (1 <? length trailPoints)%nat && showTrail.

(** How many times a character occurs in a string. *)
Fixpoint occurrences (c : ascii) (s : string) : nat :=
  match s with
  | EmptyString => 0
  | String c' s' => (if Ascii.eqb c' c then 1 else 0) + occurrences c s'
  end.

(** Further states of the scenario. *)
Module Scenario2.

(** The exchange of the scenario, cut before its "complete" message. *)
Definition unfinished : list (submission_msg Z) := take 5 Scenario.exchange.

Definition cube : meshObject Z := Group (2, 3, 5).


Definition late_segmentation : submission_msg Z :=
  msg_data [fracture_segmentation [[(7, 7, 7)]]].

Definition step_message : submission_msg Z :=
  msg_data [transformation [(1, 2, 3); (4, 5, 6)]
              [(0, 0, 1, 0); (1, 0, 0, 0)] 2 0].

(** Eleven fragments. *)
Definition eleven : list File :=
  mkFile <$> ["f0.ply"; "f1.ply"; "f2.ply"; "f3.ply"; "f4.ply"; "f5.ply";
              "f6.ply"; "f7.ply"; "f8.ply"; "f9.ply"; "f10.ply"]%string.

Definition eleven_task : AssembleTask Z :=
  match AssembleTask_new eleven [] with
  | Returns this => this
  | Throws _ => Scenario.fresh
  end.

End Scenario2.
(** * Properties *)

(** ** The transformation algebra *)

Section TransformationLaws.
Context {num : Type} `{ExactArithmetic num}.
Local Open Scope num_scope.

Add Ring num_ring : exact_ring.




End TransformationLaws.



(** ** The assembly task *)

Section StepQueries.
Context {num : Type} `{Number num}.
Implicit Types this : AssembleTask num.

Lemma js_index_nat {A} (l : list A) (n : nat) :
  js_index l (Z.of_nat n) = l !! n.
Proof.
  unfold js_index. destruct (Z.ltb_spec (Z.of_nat n) 0); [lia|].
  by rewrite Nat2Z.id.
Qed.

Lemma js_index_in_range {A} (l : list A) (s : Z) :
  0 <= s < Z.of_nat (length l) -> is_Some (js_index l s).
Proof.
  intros [Hlo Hhi]. unfold js_index.
  destruct (Z.ltb_spec s 0); [lia|].
  apply lookup_lt_is_Some. lia.
Qed.


(** C5. Assigning [currentStep] throws "Invalid step index" exactly when
    the value is below [-2] or not below the length of the recorded
    history, and then neither moves the cursor nor notifies; every value
    from [-2] to the last recorded step is accepted, becomes the cursor
    and is announced by exactly one [step] event. *)
Theorem set_currentStep_domain this (step : Z) :
  let len := Z.of_nat (length (transformations this)) in
  (set_currentStep step this = (this, [], Some InvalidStepError)
   <-> step < -2 \/ step >= len) /\
  (step < -2 \/ step >= len ->
   currentStep (set_currentStep step this).1.1 = currentStep this) /\
  (-2 <= step <= len - 1 ->
   set_currentStep step this
   = (set__currentStep step this, [emit_step step (_totalSteps this)], None)
   /\ currentStep (set_currentStep step this).1.1 = step).
Proof.
  cbn zeta. unfold set_currentStep.
  destruct (Z.ltb_spec step (-2)) as [Hlo|Hlo];
    destruct (Z.geb_spec step (Z.of_nat (length (transformations this))))
      as [Hhi|Hhi]; cbn [orb]; repeat split; try done; try lia; auto;
    try (intros [?|?]; lia).
Qed.

(** C7. A "fracture_segmentation" payload that arrives while fewer than
    six steps are recorded is what [fractureSurfaces] holds afterwards,
    and it is announced by one [recvFractureSurfaces] carrying it, every
    other field of the task staying as it was; one that arrives once six
    or more are recorded changes nothing in the task and emits nothing. *)
Theorem fracture_segmentation_window this (data : list (list (Vec3 num))) :
  let after := handle_msg (msg_data [fracture_segmentation data]) this in
  ((length (transformations this) < 6)%nat ->
   fractureSurfaces after.1.1 = data /\
   after.1.2 = [emit_recvFractureSurfaces data] /\
   after.2 = None /\
   (meshesFile after.1.1, meshesFilePathOnServer after.1.1,
    meshType after.1.1, status after.1.1, initial_transformations after.1.1,
    originalTransformations after.1.1, transformations after.1.1,
    pointClouds after.1.1, _currentStep after.1.1, _totalSteps after.1.1,
    _meshObj after.1.1, meshScale after.1.1, pieces after.1.1)
   = (meshesFile this, meshesFilePathOnServer this, meshType this,
      status this, initial_transformations this,
      originalTransformations this, transformations this, pointClouds this,
      _currentStep this, _totalSteps this, _meshObj this, meshScale this,
      pieces this))
  /\
  ((6 <= length (transformations this))%nat -> after = (this, [], None)).
Proof.
  cbn. split; intros Hlen.
  - destruct (Nat.leb_spec (length (transformations this)) 5); [|lia].
    by destruct this.
  - destruct (Nat.leb_spec (length (transformations this)) 5); [lia|done].
Qed.

End StepQueries.


Lemma set_currentStep_domain_witness :
  set_currentStep 2 Scenario.completed
  = (Scenario.completed, [], Some InvalidStepError) /\
  currentStep (set_currentStep 0 Scenario.completed).1.1 = 0.
Proof.
  destruct (set_currentStep_domain Scenario.completed 2) as (Hiff & _ & _).
  destruct (set_currentStep_domain Scenario.completed 0) as (_ & _ & Hok).
  split.
  - apply Hiff. right. vm_compute. discriminate.
  - apply Hok. vm_compute. split; discriminate.
Defined.

Lemma fracture_segmentation_window_witness :
  (fractureSurfaces
     (handle_msg (msg_data [fracture_segmentation [[(7, 7, 7)]]])
        Scenario.with_input).1.1
   = [[(7, 7, 7)]] /\
   (handle_msg (msg_data [fracture_segmentation [[(7, 7, 7)]]])
      Scenario.with_input).1.2
   = [emit_recvFractureSurfaces [[(7, 7, 7)]]]) /\
  handle_msg (msg_data [fracture_segmentation [[(7, 7, 7)]]]) Scenario.six_steps
  = (Scenario.six_steps, [], None).
Proof.
  pose proof (fracture_segmentation_window Scenario.with_input [[(7, 7, 7)]])
    as Hopen.
  pose proof (fracture_segmentation_window Scenario.six_steps [[(7, 7, 7)]])
    as Hclosed.
  cbv zeta in Hopen, Hclosed.
  destruct Hopen as [Hopen _]. destruct Hclosed as [_ Hclosed].
  split.
  - destruct Hopen as (Hdata & Hevent & _); [vm_compute; lia|].
    split; [exact Hdata | exact Hevent].
  - apply Hclosed. vm_compute. lia.
Defined.

Section StartAssemble.
Context {num : Type} `{Number num}.
Implicit Types this : AssembleTask num.

Lemma in_flight_running s : in_flight s = true <-> running s.
Proof.
  unfold running, in_flight.
  destruct s; cbn; split; intros Hs; try done; auto;
    destruct Hs as [Hs|[Hs|Hs]]; discriminate Hs.
Qed.

Lemma in_flight_not_running s : in_flight s = false <-> ~ running s.
Proof. rewrite <- in_flight_running. by destruct (in_flight s). Qed.

Lemma no_Submit_in_events (evs : list (event num)) :
  filter is_Submit (Emit <$> evs) = [].
Proof.
  induction evs as [|ev evs IH]; [done|].
  rewrite fmap_cons, filter_cons_False; [exact IH|]. cbn. auto.
Qed.

(** The deletions leave every other setting alone. *)
Lemma drop_empty_checkpoints_fields (s : AssembleSettings) :
  let s' := drop_empty_checkpoints s in
  samplePoints s' = samplePoints s /\ steps s' = steps s /\ seed s' = seed s /\
  maxIterations s' = maxIterations s /\ oneStepInit s' = oneStepInit s /\
  sampleStrategy s' = sampleStrategy s /\
  dataCollection s' = dataCollection s /\
  loraCheckpoint s'
  = (if falsy (loraCheckpoint s) then absent else loraCheckpoint s) /\
  ckpt s' = (if falsy (ckpt s) then absent else ckpt s).
Proof.
  unfold drop_empty_checkpoints.
  destruct (falsy (loraCheckpoint s)) eqn:Hl; cbn;
    destruct (falsy (ckpt s)) eqn:Hc; cbn; rewrite ?Hl, ?Hc; done.
Qed.

(** What the synchronous part does once past the guard. *)
Lemma startAssemble_open_passes this (σ : store) (settings : ref) s :
  ~ running (status this) ->
  σ !! settings = Some s ->
  exists this' submission,
    startAssemble_open settings this σ
    = (this', <[settings := drop_empty_checkpoints s]> σ,
       [Emit (emit_statusUpdate REQUESTED None);
        Emit (emit_step (-2) (_totalSteps this'));
        submission], None) /\
    this'
    = set__totalSteps (totalSteps_of s)
        (set__currentStep (-2)
           (set_initial_transformations []
              (set_originalTransformations []
                 (set_transformations [] (set_status REQUESTED this))))) /\
    (submission
     = Submit "/inference" None (meshesFilePathOnServer this) (meshType this)
         settings \/
     submission
     = Submit "/inference" (Some (meshesFile this)) [] (meshType this)
         settings).
Proof.
  intros Hrun Hs. apply in_flight_not_running in Hrun.
  assert (totalSteps_of (drop_empty_checkpoints s) = totalSteps_of s) as Htotal.
  { unfold totalSteps_of.
    by destruct (drop_empty_checkpoints_fields s)
      as (_ & -> & _ & -> & -> & _). }
  unfold startAssemble_open. rewrite Hrun, Hs. cbn zeta. rewrite Htotal.
  set (this' := set__totalSteps _ _).
  destruct (Nat.eqb _ _); exists this'; eexists; (split; [reflexivity|]); auto.
Qed.

(** The loop only notifies; the store is not touched after the opening. *)
Lemma startAssemble_after_open (settings : ref)
    (submission : list (submission_msg num)) this (σ : store) this' σ' opened :
  startAssemble_open settings this σ = (this', σ', opened, None) ->
  exists final evs e,
    startAssemble settings submission this σ
    = (final, σ', opened ++ (Emit <$> evs), e).
Proof.
  intros Hopen. unfold startAssemble. rewrite Hopen.
  destruct (consume submission this') as [[final evs] e]. eauto.
Qed.

(** C4. [startAssemble] throws "Task has already started" exactly when
    the status is REQUESTED, QUEUED or PROGRESSING, and then does nothing
    else. Otherwise it empties [transformations],
    [originalTransformations] and [initial_transformations], puts the
    cursor at [-2], sets [_totalSteps] to
    [steps * maxIterations + (oneStepInit ? 1 : 0)] of the settings it was
    given, moves to REQUESTED, emits [statusUpdate(REQUESTED)] and then
    [step(-2, totalSteps)], and after these opens the exchange; in the
    whole call [submit] is called exactly once. *)
Theorem startAssemble_guard_and_reset this (σ : store) (settings : ref) :
  ((startAssemble_open settings this σ).2 = Some AlreadyRunningError
   <-> running (status this)) /\
  (running (status this) ->
   forall submission,
     startAssemble settings submission this σ
     = (this, σ, [], Some AlreadyRunningError)) /\
  (forall s,
     ~ running (status this) ->
     σ !! settings = Some s ->
     exists this' σ' submit,
       startAssemble_open settings this σ
       = (this', σ',
          [Emit (emit_statusUpdate REQUESTED None);
           Emit (emit_step (-2) (_totalSteps this'));
           submit], None) /\
       is_Submit submit = true /\
       transformations this' = [] /\
       originalTransformations this' = [] /\
       initial_transformations this' = [] /\
       currentStep this' = -2 /\
       _totalSteps this'
       = steps s * maxIterations s + (if oneStepInit s then 1 else 0) /\
       status this' = REQUESTED /\
       forall submission,
         length (filter is_Submit
                   (startAssemble settings submission this σ).1.2) = 1%nat).
Proof.
  split; [|split].
  - unfold startAssemble_open.
    destruct (in_flight (status this)) eqn:Hfl.
    + apply in_flight_running in Hfl. done.
    + apply in_flight_not_running in Hfl.
      destruct (σ !! settings); cbn; split; done.
  - intros Hrun submission. apply in_flight_running in Hrun.
    unfold startAssemble, startAssemble_open. by rewrite Hrun.
  - intros s Hrun Hs.
    destruct (startAssemble_open_passes _ _ _ _ Hrun Hs)
      as (this' & submit & Hopen & -> & Hsubmit).
    eexists _, _, submit. split; [exact Hopen|].
    split; [by destruct Hsubmit as [-> | ->]|].
    repeat (split; [reflexivity|]).
    intros submission.
    destruct (startAssemble_after_open _ submission _ _ _ _ _ Hopen)
      as (final & evs & e & ->).
    cbn [fst snd]. rewrite filter_app, no_Submit_in_events.
    destruct Hsubmit as [-> | ->]; reflexivity.
Qed.

(** C10, as the code has it. When [startAssemble] is called on a task
    with no run under way, it writes to the very object it was given: an
    absent, [undefined] or empty [loraCheckpoint], and likewise [ckpt], is
    deleted from it, a non-empty one and every other setting stay; the
    same object is what the exchange is opened with; no other object of
    the caller is touched; and what the caller reads from the object
    afterwards, however many messages the exchange delivered, is the
    object with the fields deleted. *)
Theorem startAssemble_deletes_empty_checkpoints this (σ : store)
    (settings : ref) (s : AssembleSettings)
    (submission : list (submission_msg num)) :
  ~ running (status this) ->
  σ !! settings = Some s ->
  let σ' := (startAssemble settings submission this σ).1.1.2 in
  let trace := (startAssemble settings submission this σ).1.2 in
  exists s',
    σ' !! settings = Some s' /\
    loraCheckpoint s'
    = (if falsy (loraCheckpoint s) then absent else loraCheckpoint s) /\
    ckpt s' = (if falsy (ckpt s) then absent else ckpt s) /\
    (samplePoints s', steps s', seed s', maxIterations s', oneStepInit s',
     sampleStrategy s', dataCollection s')
    = (samplePoints s, steps s, seed s, maxIterations s, oneStepInit s,
       sampleStrategy s, dataCollection s) /\
    (forall other, other <> settings -> σ' !! other = σ !! other) /\
    (exists files paths,
       trace !! 2%nat
       = Some (Submit "/inference" files paths (meshType this) settings)) /\
    (startAssemble_open settings this σ).1.1.2 = σ'.
Proof.
  intros Hrun Hs σ' trace.
  destruct (startAssemble_open_passes _ _ _ _ Hrun Hs)
    as (this' & submit & Hopen & _ & Hsubmit).
  destruct (startAssemble_after_open _ submission _ _ _ _ _ Hopen)
    as (final & evs & e & Hrun_all).
  subst σ' trace. rewrite Hrun_all, Hopen. cbn [fst snd].
  exists (drop_empty_checkpoints s).
  destruct (drop_empty_checkpoints_fields s)
    as (-> & -> & -> & -> & -> & -> & -> & -> & ->).
  split; [apply lookup_insert_eq|].
  do 3 (split; [reflexivity|]).
  split; [by intros other Hother; apply lookup_insert_ne|].
  split; [|reflexivity].
  destruct Hsubmit as [-> | ->]; cbn; eauto.
Qed.

End StartAssemble.

Lemma startAssemble_guard_and_reset_witness :
  startAssemble 2%positive [] Scenario.requested Scenario.σ1
  = (Scenario.requested, Scenario.σ1, [], Some AlreadyRunningError) /\
  exists this' σ' submit,
    startAssemble_open 1%positive Scenario.fresh Scenario.σ0
    = (this', σ',
       [Emit (emit_statusUpdate REQUESTED None);
        Emit (emit_step (-2) (_totalSteps this')); submit], None) /\
    _totalSteps this' = 121.
Proof.
  split.
  - apply (startAssemble_guard_and_reset Scenario.requested Scenario.σ1
             2%positive).
    left. reflexivity.
  - destruct (startAssemble_guard_and_reset Scenario.fresh Scenario.σ0
                1%positive) as (_ & _ & Hreset).
    destruct (Hreset Scenario.settings)
      as (this' & σ' & submit & Hopen & _ & _ & _ & _ & _ & Htotal & _).
    + intros [Hrun|[Hrun|Hrun]]; discriminate Hrun.
    + reflexivity.
    + exists this', σ', submit. split; [exact Hopen | exact Htotal].
Defined.

Section Messages.
Context {num : Type} `{Number num}.
Implicit Types this : AssembleTask num.

(** The raw poses of a message that reports a rotation for every
    translation. *)
Lemma raw_poses_zip (translation : list (Vec3 num))
    (rotation : list (Quat num)) :
  (length translation <= length rotation)%nat ->
  imap (raw_pose rotation) translation
  = of_Transformation <$> zip_with mkTransformation translation rotation.
Proof.
  intros Hlen. apply list_eq. intros idx.
  rewrite list_lookup_imap, list_lookup_fmap, lookup_zip_with.
  destruct (translation !! idx) as [trans|] eqn:Htrans; [|done].
  destruct (lookup_lt_is_Some_2 rotation idx) as [rot Hrot].
  { apply lookup_lt_Some in Htrans. lia. }
  cbn. unfold raw_pose. by rewrite Hrot.
Qed.

Lemma normalized_pose_returns (initial : list (TransformationObj num))
    (rotation : list (Quat num)) (trans : Vec3 num) (idx : nat)
    (init : Transformation num) (rot : Quat num) :
  initial !! idx = Some (of_Transformation init) ->
  rotation !! idx = Some rot ->
  normalized_pose initial rotation trans idx
  = Returns (applyTransformation (mkTransformation trans rot) (inverse init)).
Proof.
  intros Hinit Hrot. unfold normalized_pose, raw_pose.
  rewrite Hinit, Hrot. by destruct init.
Qed.

(** The first [map] of [case "transformation"], when every fragment has a
    reported rotation and a recorded initial pose; [seen] poses lie
    before index [idx]. *)
Lemma normalized_poses_from
    (translation : list (Vec3 num)) (rotation seen_rot : list (Quat num))
    (inits seen_init : list (Transformation num)) :
  (length translation <= length rotation)%nat ->
  (length translation <= length inits)%nat ->
  length seen_rot = length seen_init ->
  map_throwing_from
    (normalized_pose (of_Transformation <$> (seen_init ++ inits))
       (seen_rot ++ rotation))
    (length seen_init) translation
  = Returns
      (zip_with (fun pose init => applyTransformation pose (inverse init))
         (zip_with mkTransformation translation rotation) inits).
Proof.
  revert rotation seen_rot inits seen_init.
  induction translation as [|trans translation IH];
    intros rotation seen_rot inits seen_init Hrot Hinit Hseen; [done|].
  destruct rotation as [|rot rotation]; [cbn in Hrot; lia|].
  destruct inits as [|init inits]; [cbn in Hinit; lia|].
  cbn [map_throwing_from zip_with].
  rewrite (normalized_pose_returns _ _ _ _ init rot); cycle 1.
  { by rewrite list_lookup_fmap, list_lookup_middle. }
  { by rewrite list_lookup_middle. }
  specialize (IH rotation (seen_rot ++ [rot]) inits (seen_init ++ [init])).
  rewrite <- !(assoc_L (++)) in IH. cbn [app] in IH.
  replace (S (length seen_init)) with (length (seen_init ++ [init]))
    by (rewrite length_app; cbn; lia).
  rewrite IH; [done | cbn in Hrot; lia | cbn in Hinit; lia |].
  rewrite !length_app. cbn. lia.
Qed.

(** C3. A "transformation" payload, once an initial transformation is
    recorded for every fragment the message reports and the message
    reports a rotation with every translation, appends the raw poses to
    [originalTransformations], appends to [transformations] each raw pose
    composed by [applyTransformation] with the inverse of the fragment's
    initial transformation, moves the cursor to the new last index of
    [transformations] and emits exactly one [step] event with that index
    and [_totalSteps]. *)
Theorem transformation_message_recorded this
    (translation : list (Vec3 num)) (rotation : list (Quat num))
    (step iter : Z) (inits : list (Transformation num)) :
  initial_transformations this = of_Transformation <$> inits ->
  (length translation <= length inits)%nat ->
  (length translation <= length rotation)%nat ->
  let raw := zip_with mkTransformation translation rotation in
  let normalized :=
    zip_with (fun pose init => applyTransformation pose (inverse init))
      raw inits in
  let last := Z.of_nat (length (transformations this)) in
  exists this',
    handle_msg (msg_data [transformation translation rotation step iter]) this
    = (this', [emit_step last (_totalSteps this)], None) /\
    this'
    = set__currentStep last
        (set_originalTransformations
           (originalTransformations this ++ [of_Transformation <$> raw])
           (set_transformations (transformations this ++ [normalized]) this))
    /\
    originalTransformations this'
    = originalTransformations this ++ [of_Transformation <$> raw] /\
    transformations this' = transformations this ++ [normalized] /\
    currentStep this' = Z.of_nat (length (transformations this')) - 1.
Proof.
  intros Hinits Hlen_init Hlen_rot raw normalized last.
  eexists. split; [|split; [reflexivity|]].
  - cbn [handle_msg lookup list_lookup handle_payload]. cbn [list_lookup].
    unfold map_throwing. rewrite Hinits.
    pose proof (normalized_poses_from translation rotation [] inits [])
      as Hmap.
    cbn [app length] in Hmap. rewrite Hmap by done.
    rewrite raw_poses_zip by done.
    cbn. rewrite length_app. cbn [length].
    replace (Z.of_nat (length (transformations this) + 1) - 1)
      with last by (subst last; lia).
    reflexivity.
  - cbn. repeat split. rewrite length_app. cbn [length]. subst last. lia.
Qed.

End Messages.

Lemma transformation_message_recorded_witness :
  exists this',
    handle_msg
      (msg_data [transformation [(1, 2, 3); (4, 5, 6)]
                   [(0, 0, 1, 0); (1, 0, 0, 0)] 0 0])
      Scenario.with_input
    = (this', [emit_step 0 121], None) /\
    transformations this'
    = [[mkTransformation (1, 2, 3) (0, 0, 1, 0);
        mkTransformation (3, 5, 6) (0, -1, 0, 0)]] /\
    currentStep this' = 0.
Proof.
  destruct (transformation_message_recorded Scenario.with_input
              [(1, 2, 3); (4, 5, 6)] [(0, 0, 1, 0); (1, 0, 0, 0)] 0 0
              Scenario.initial)
    as (this' & Hmsg & _ & _ & Hnormalized & Hcursor).
  - reflexivity.
  - vm_compute. lia.
  - vm_compute. lia.
  - exists this'. split; [exact Hmsg|]. split; [exact Hnormalized|].
    rewrite Hcursor, Hnormalized. reflexivity.
Defined.

(** ** The scenario *)

Lemma scenario_constructed :
  AssembleTask_new Scenario.files [] = Returns Scenario.fresh.
Proof. reflexivity. Qed.

Lemma scenario_completed :
  status Scenario.completed = COMPLETED /\
  length (transformations Scenario.completed) = 2%nat /\
  currentStep Scenario.completed = 1.
Proof. vm_compute. auto. Qed.

(** C10 as stated fails on a task with a run under way: a second
    [startAssemble], given an object whose [ckpt] is the empty string,
    throws before it reaches the deletions, and the caller still finds the
    empty [ckpt] on the object afterwards. *)
Lemma running_task_keeps_empty_ckpt :
  running (status Scenario.requested) /\
  Scenario.σ1 !! 2%positive = Some Scenario.settings2 /\
  falsy (ckpt Scenario.settings2) = true /\
  (startAssemble 2%positive [] Scenario.requested Scenario.σ1).2
  = Some AlreadyRunningError /\
  (startAssemble 2%positive [] Scenario.requested Scenario.σ1).1.1.2
    !! 2%positive = Some Scenario.settings2 /\
  ckpt Scenario.settings2 <> absent.
Proof. vm_compute. repeat split; auto. discriminate. Qed.

Lemma startAssemble_deletes_empty_checkpoints_witness :
  exists s',
    (startAssemble 1%positive Scenario.exchange Scenario.fresh Scenario.σ0).1.1.2
      !! 1%positive = Some s' /\
    loraCheckpoint s' = absent /\ ckpt s' = absent.
Proof.
  destruct (startAssemble_deletes_empty_checkpoints Scenario.fresh Scenario.σ0
              1%positive Scenario.settings Scenario.exchange)
    as (s' & Hs' & Hlora & Hckpt & _).
  - intros [Hrun|[Hrun|Hrun]]; discriminate Hrun.
  - reflexivity.
  - exists s'. split; [exact Hs'|]. split; [exact Hlora | exact Hckpt].
Defined.

(** ** The two histories stay parallel *)

Section Histories.
Context {num : Type} `{Number num}.
Implicit Types this : AssembleTask num.

Lemma map_throwing_from_length {A B} (f : A -> nat -> result B) (idx : nat)
    (l : list A) (out : list B) :
  map_throwing_from f idx l = Returns out -> length out = length l.
Proof.
  revert idx out. induction l as [|a l IH]; intros idx out; cbn.
  - by intros [= <-].
  - destruct (f a idx) as [b|e]; cbn; [|done].
    destruct (map_throwing_from f (S idx) l) as [bs|e] eqn:Hbs; cbn; [|done].
    intros [= <-]. cbn. f_equal. by eapply IH.
Qed.

Lemma same_history_aligned this this' :
  same_history this this' -> history_aligned this -> history_aligned this'.
Proof. unfold history_aligned. by intros [-> ->]. Qed.

Lemma handle_status_same_history (stage : string) this :
  same_history this (handle_status stage this).1.
Proof.
  unfold handle_status.
  destruct (String.eqb stage "pending"), (String.eqb stage "generating"),
    (String.eqb stage "error"), (String.eqb stage "complete"); by split.
Qed.

Lemma handle_payload_aligned (data : AssembleMsg num) this :
  history_aligned this -> history_aligned (handle_payload data this).1.1.
Proof.
  intros Haligned.
  destruct data as [d|pcs itrans irot|d|translation rotation step iter|d];
    cbn [handle_payload].
  - by destruct (decide (d <> meshScale this)).
  - done.
  - by destruct (length (transformations this) <=? 5)%nat.
  - destruct (map_throwing _ translation) as [normalized|e] eqn:Hmap; [|done].
    unfold history_aligned. cbn.
    apply Forall2_app; [exact Haligned|].
    constructor; [|constructor].
    rewrite length_imap. by eapply map_throwing_from_length.
  - done.
Qed.

Lemma handle_msg_aligned (msg : submission_msg num) this :
  history_aligned this -> history_aligned (handle_msg msg this).1.1.
Proof.
  intros Haligned. destruct msg as [stage|data|]; cbn [handle_msg].
  - pose proof (handle_status_same_history stage this) as Hsame.
    destruct (handle_status stage this) as [this' evs].
    by eapply same_history_aligned.
  - destruct (data !! 0%nat) as [d|]; [|done].
    by apply handle_payload_aligned.
  - done.
Qed.

Lemma startAssemble_open_aligned (settings : ref) this (σ : store) :
  history_aligned this ->
  history_aligned (startAssemble_open settings this σ).1.1.1.
Proof.
  intros Haligned. unfold startAssemble_open.
  destruct (in_flight (status this)); [done|].
  destruct (σ !! settings); [|done].
  unfold history_aligned. cbn. constructor.
Qed.

Lemma consume_aligned (submission : list (submission_msg num)) this :
  history_aligned this -> history_aligned (consume submission this).1.1.
Proof.
  revert this. induction submission as [|msg rest IH]; intros this Haligned;
    [done|].
  cbn [consume].
  pose proof (handle_msg_aligned msg this Haligned) as Hnext.
  destruct (handle_msg msg this) as [[this' evs] [e|]]; [done|].
  specialize (IH this' Hnext).
  by destruct (consume rest this') as [[final later] e].
Qed.

Lemma setObject_same_history (index : nat) (obj : meshObject num) this :
  same_history this (setObject index obj this).1.1.
Proof. unfold setObject. by destruct (forallb _ _). Qed.

Lemma perform_aligned (o : operation num) this (σ : store) :
  history_aligned this -> history_aligned (perform o (this, σ)).1.
Proof.
  intros Haligned. destruct o as [settings|msg|step|index obj|name]; cbn.
  - pose proof (startAssemble_open_aligned settings this σ Haligned) as Hopen.
    by destruct (startAssemble_open settings this σ) as [[[this' σ'] tr] e].
  - by apply handle_msg_aligned.
  - unfold set_currentStep. by destruct (_ || _).
  - eapply same_history_aligned; [apply setObject_same_history | done].
  - done.
Qed.

Lemma AssembleTask_new_aligned (files : list File) (paths : list string) this :
  AssembleTask_new files paths = Returns this -> history_aligned this.
Proof.
  unfold AssembleTask_new. intros Hnew.
  repeat (match type of Hnew with
          | (if ?c then _ else _) = _ => destruct c
          end; try discriminate Hnew).
  injection Hnew as <-. constructor.
Qed.

Lemma operations_aligned (ops : list (operation num)) this (σ : store) :
  history_aligned this ->
  history_aligned (foldl (fun w o => perform o w) (this, σ) ops).1.
Proof.
  revert this σ. induction ops as [|o ops IH]; intros this σ Haligned; [done|].
  cbn [foldl].
  pose proof (perform_aligned o this σ Haligned) as Hnext.
  destruct (perform o (this, σ)) as [this' σ']. by apply IH.
Qed.

(** C9. The task is constructed with [transformations] and
    [originalTransformations] parallel: of equal length, with equally many
    fragments in corresponding steps. Every operation keeps them so: the
    synchronous part of [startAssemble], each message of the exchange, an
    assignment of [currentStep], [setObject] and [exportJson], hence every
    sequence of them and every whole run of [startAssemble]. *)
Theorem histories_stay_aligned :
  (forall files paths this,
     AssembleTask_new files paths = Returns this -> history_aligned this) /\
  (forall (o : operation num) this (σ : store),
     history_aligned this -> history_aligned (perform o (this, σ)).1) /\
  (forall files paths this (σ : store) (ops : list (operation num)),
     AssembleTask_new files paths = Returns this ->
     history_aligned (foldl (fun w o => perform o w) (this, σ) ops).1) /\
  (forall settings submission this (σ : store),
     history_aligned this ->
     history_aligned (startAssemble settings submission this σ).1.1.1) /\
  (forall this,
     history_aligned this ->
     length (transformations this) = length (originalTransformations this) /\
     forall (s : nat) normalized original,
       transformations this !! s = Some normalized ->
       originalTransformations this !! s = Some original ->
       length normalized = length original).
Proof.
  split; [exact AssembleTask_new_aligned|].
  split; [exact perform_aligned|].
  split; [|split].
  - intros files paths this σ ops Hnew.
    by apply operations_aligned, (AssembleTask_new_aligned files paths).
  - intros settings submission this σ Haligned. unfold startAssemble.
    pose proof (startAssemble_open_aligned settings this σ Haligned) as Hopen.
    destruct (startAssemble_open settings this σ) as [[[this' σ'] tr] [e|]];
      [done|].
    pose proof (consume_aligned submission this' Hopen) as Hend.
    by destruct (consume submission this') as [[final later] e].
  - intros this Haligned. split; [exact (Forall2_length _ _ _ Haligned)|].
    intros s normalized original Hnorm Horig.
    exact (Forall2_lookup_lr _ _ _ _ _ _ Haligned Hnorm Horig).
Qed.

End Histories.

Lemma histories_stay_aligned_witness :
  history_aligned Scenario.completed /\
  length (transformations Scenario.completed) = 2%nat /\
  length (originalTransformations Scenario.completed) = 2%nat.
Proof.
  destruct (histories_stay_aligned (num:=Z))
    as (Hnew & _ & _ & Hrun & Hlen).
  assert (history_aligned Scenario.completed) as Haligned.
  { apply (Hrun 1%positive Scenario.exchange Scenario.fresh Scenario.σ0).
    exact (Hnew Scenario.files [] Scenario.fresh eq_refl). }
  split; [exact Haligned|].
  split; [reflexivity|].
  destruct (Hlen Scenario.completed Haligned) as [<- _]. reflexivity.
Defined.

(** ** What a run with a conforming backend records *)

Section Conforming.
Context {num : Type} `{Number num}.
Implicit Types this : AssembleTask num.

(** No operation changes the files of a task or the names it shows for
    them, which are the names of the files. *)
Lemma perform_same_files (o : operation num) this (σ : store) :
  same_files this (perform o (this, σ)).1.
Proof.
  destruct o as [settings|msg|step|index obj|name]; cbn.
  - unfold startAssemble_open.
    destruct (in_flight (status this)); [done|].
    by destruct (σ !! settings).
  - destruct msg as [stage|data|]; cbn [handle_msg]; [| |done].
    + unfold handle_status.
      by destruct (String.eqb stage "pending"),
        (String.eqb stage "generating"), (String.eqb stage "error"),
        (String.eqb stage "complete").
    + destruct (data !! 0%nat) as [d|]; [|done].
      destruct d as [d|pcs itrans irot|d|translation rotation step iter|d];
        cbn [handle_payload]; [|done| | |done].
      * by destruct (decide (d <> meshScale this)).
      * by destruct (length (transformations this) <=? 5)%nat.
      * by destruct (map_throwing _ translation).
  - unfold set_currentStep. by destruct (_ || _).
  - unfold setObject. by destruct (forallb _ _).
  - done.
Qed.

Lemma has_quaternion_of_Transformation (l : list (TransformationObj num)) :
  Forall has_quaternion l <-> exists ts, l = of_Transformation <$> ts.
Proof.
  split.
  - induction 1 as [|[trans [q|]] l [q' Hq] _ [ts ->]]; [by exists []| |done].
    exists (mkTransformation trans q :: ts). done.
  - intros [ts ->]. apply Forall_fmap, Forall_forall. intros t _. by eexists.
Qed.

Lemma have_quaternions_of_Transformation
    (l : list (list (TransformationObj num))) :
  Forall (Forall has_quaternion) l ->
  exists rows, l = fmap (M:=list) of_Transformation <$> rows.
Proof.
  induction 1 as [|row l Hrow _ [rows ->]]; [by exists []|].
  apply has_quaternion_of_Transformation in Hrow as [ts ->].
  by exists (ts :: rows).
Qed.

(** The poses of an "input" payload with enough rotations. *)
Lemma raw_poses_have_quaternion (translation : list (Vec3 num))
    (rotation : list (Quat num)) :
  (length translation <= length rotation)%nat ->
  Forall has_quaternion (imap (raw_pose rotation) translation).
Proof.
  intros Hlen. rewrite raw_poses_zip by done.
  apply has_quaternion_of_Transformation. eauto.
Qed.

(** When the first [map] of [case "transformation"] goes through, every
    translation had its rotation. *)
Lemma normalized_poses_need_rotations (initial : list (TransformationObj num))
    (rotation : list (Quat num)) (translation : list (Vec3 num)) (idx : nat)
    (out : list (Transformation num)) :
  map_throwing_from (normalized_pose initial rotation) idx translation
  = Returns out ->
  Forall has_quaternion
    (imap (fun j => raw_pose rotation (idx + j)) translation).
Proof.
  revert idx out. induction translation as [|trans translation IH];
    intros idx out; [constructor|].
  cbn [map_throwing_from]. rewrite imap_cons.
  destruct (normalized_pose initial rotation trans idx) as [p|e] eqn:Hpose;
    cbn; [|done].
  destruct (map_throwing_from _ (S idx) translation) as [ps|e] eqn:Hrest;
    cbn; [|done].
  intros _. constructor.
  - unfold normalized_pose, raw_pose, well_formed in Hpose.
    rewrite Nat.add_0_r. unfold has_quaternion, raw_pose. cbn in *.
    destruct (initial !! idx) as [init|]; [|done].
    destruct (obj_quaternion init); cbn in Hpose; [|done].
    by destruct (rotation !! idx).
  - erewrite imap_ext; [by eapply IH|].
    intros j trans' _. cbn. f_equal. lia.
Qed.

Lemma handle_msg_well_recorded (msg : submission_msg num) this :
  conforming (length (meshesFile this)) msg ->
  well_recorded this -> well_recorded (handle_msg msg this).1.1.
Proof.
  intros Hmsg (Hinit & Htyped & Hcount).
  destruct msg as [stage|data|]; cbn [handle_msg]; [| |done].
  - unfold handle_status.
    by destruct (String.eqb stage "pending"),
      (String.eqb stage "generating"), (String.eqb stage "error"),
      (String.eqb stage "complete").
  - destruct data as [|d data]; [done|]. cbn [lookup list_lookup].
    destruct d as [d|pcs itrans irot|d|translation rotation step iter|d];
      cbn [handle_payload]; [|  | | |done].
    + by destruct (decide (d <> meshScale this)).
    + split; [|done]. cbn. by apply raw_poses_have_quaternion.
    + by destruct (length (transformations this) <=? 5)%nat.
    + destruct (map_throwing _ translation) as [normalized|e] eqn:Hmap; [|done].
      apply normalized_poses_need_rotations in Hmap.
      cbn in Hmap, Hmsg. unfold well_recorded. cbn.
      split; [done|]. split.
      * apply Forall_app. split; [done|]. by constructor.
      * apply Forall_app. split; [done|]. constructor; [|done].
        by rewrite length_imap.
Qed.

Lemma perform_well_recorded (o : operation num) this (σ : store) :
  conforming_op (length (meshesFile this)) o ->
  well_recorded this -> well_recorded (perform o (this, σ)).1.
Proof.
  intros Ho Hthis. destruct o as [settings|msg|step|index obj|name]; cbn.
  - unfold startAssemble_open.
    destruct (in_flight (status this)); [done|].
    destruct (σ !! settings); [|done].
    unfold well_recorded. cbn. by repeat constructor.
  - by apply handle_msg_well_recorded.
  - unfold set_currentStep. by destruct (_ || _).
  - unfold setObject. by destruct (forallb _ _).
  - done.
Qed.

(** A task constructed from [files] and driven by any operations in which
    the backend's messages conform holds only well-typed poses, one for
    each fragment at every recorded step. *)
Lemma conforming_run_well_recorded (files : list File) (paths : list string)
    this (σ : store) (ops : list (operation num)) :
  AssembleTask_new files paths = Returns this ->
  Forall (conforming_op (length files)) ops ->
  well_recorded (foldl (fun w o => perform o w) (this, σ) ops).1.
Proof.
  intros Hnew Hops.
  assert (well_recorded this /\ meshesFile this = files) as Hstart.
  { unfold AssembleTask_new in Hnew.
    repeat (match type of Hnew with
            | (if ?c then _ else _) = _ => destruct c
            end; try discriminate Hnew).
    injection Hnew as <-. by repeat constructor. }
  clear Hnew. revert this σ Hstart.
  induction Hops as [|o ops Ho _ IH]; intros this σ [Hthis Hfiles]; [done|].
  cbn [foldl].
  pose proof (perform_same_files o this σ) as (Hsame & _).
  pose proof (perform_well_recorded o this σ) as Hnext.
  rewrite Hfiles in Hnext. specialize (Hnext Ho Hthis).
  destruct (perform o (this, σ)) as [this' σ']. apply IH.
  cbn [fst] in *. split; [done | congruence].
Qed.

End Conforming.

(** ** Export *)

Section ExportJson.
Context {num : Type} `{Number num}.
Implicit Types this : AssembleTask num.

Lemma map_throwing_from_fmap {A B C} (f : B -> nat -> result C)
    (g : A -> B) (h : A -> C) (idx : nat) (l : list A) :
  (forall a i, f (g a) i = Returns (h a)) ->
  map_throwing_from f idx (g <$> l) = Returns (h <$> l).
Proof.
  intros Hf. revert idx. induction l as [|a l IH]; intros idx; [done|].
  cbn. by rewrite Hf, IH.
Qed.

Lemma flatten_of_Transformation (t : Transformation num) :
  flatten (of_Transformation t) = Returns (pose7 t).
Proof. by destruct t as [[[tx ty] tz] [[[qw qx] qy] qz]]. Qed.

Lemma pose7_length (t : Transformation num) : length (pose7 t) = 7%nat.
Proof. by destruct t as [[[tx ty] tz] [[[qw qx] qy] qz]]. Qed.

Lemma pieces_are_file_names (files : list File) (paths : list string) this
    (σ : store) (ops : list (operation num)) :
  AssembleTask_new files paths = Returns this ->
  let this' := (foldl (fun w o => perform o w) (this, σ) ops).1 in
  pieces this' = name <$> meshesFile this' /\ meshesFile this' = files.
Proof.
  intros Hnew. cbn zeta.
  assert (pieces this = name <$> meshesFile this /\ meshesFile this = files)
    as Hstart.
  { unfold AssembleTask_new in Hnew.
    repeat (match type of Hnew with
            | (if ?c then _ else _) = _ => destruct c
            end; try discriminate Hnew).
    by injection Hnew as <-. }
  clear Hnew. revert this σ Hstart.
  induction ops as [|o ops IH]; intros this σ Hstart; [done|].
  cbn [foldl].
  pose proof (perform_same_files o this σ) as (Hfiles & _ & _ & Hpieces).
  destruct (perform o (this, σ)) as [this' σ']. apply IH.
  cbn [fst] in *. by rewrite Hfiles, Hpieces.
Qed.

(** The document of a task whose poses have their quaternions. *)
Lemma exportJson_returns (run : string) this
    (inits : list (Transformation num))
    (origs : list (list (Transformation num))) :
  initial_transformations this = of_Transformation <$> inits ->
  originalTransformations this = fmap (M:=list) of_Transformation <$> origs ->
  exportJson run this
  = (Returns
       {| ExportData.name := run;
          ExportData.num_parts := length (meshesFile this);
          ExportData.gt_trans_rots := pose7 <$> inits;
          ExportData.pred_trans_rots := fmap (M:=list) pose7 <$> origs;
          ExportData.removal_pieces := "";
          ExportData.redundant_pieces := "";
          ExportData.pieces := join "," (pieces this);
          ExportData.mesh_scale := meshScale this;
          ExportData.pointclouds := pointClouds this |}, this).
Proof.
  intros Hinits Horigs.
  unfold exportJson, map_throwing. rewrite Hinits, Horigs.
  rewrite (map_throwing_from_fmap _ of_Transformation pose7)
    by (intros; apply flatten_of_Transformation).
  rewrite (map_throwing_from_fmap _ (fmap (M:=list) of_Transformation)
             (fmap (M:=list) pose7)).
  - reflexivity.
  - intros row _.
    apply (map_throwing_from_fmap _ of_Transformation pose7).
    intros; apply flatten_of_Transformation.
Qed.

(** C8, as the code has it. [exportJson] reads the task and leaves it
    as it is, so that a second call on the state the first one left
    yields the same result.
    For a task whose recorded poses all have their quaternion (as their
    type says), it returns a document, which has: in [pred_trans_rots], one entry for each
    recorded step, holding one entry for each pose recorded at that step
    (one for each fragment, when a pose was recorded for each fragment),
    each the seven numbers [tx, ty, tz, qw, qx, qy, qz] of the pose in
    [originalTransformations]; in [gt_trans_rots], the same seven numbers
    for each pose of [initial_transformations]; empty [removal_pieces] and
    [redundant_pieces]; in [pieces], the file names joined by commas; and
    in [mesh_scale] and [pointclouds], the values the task holds.
    In particular, after any operations on a constructed task during which
    the backend's messages conform, [exportJson] returns a document whose
    [pred_trans_rots] has one entry for each recorded step, each with one
    seven-number entry for each fragment. *)
Theorem exportJson_document (run : string) :
  (forall this (inits : list (Transformation num))
          (origs : list (list (Transformation num))),
     initial_transformations this = of_Transformation <$> inits ->
     originalTransformations this
     = fmap (M:=list) of_Transformation <$> origs ->
     exists doc,
       exportJson run this = (Returns doc, this) /\
       exportJson run (exportJson run this).2 = exportJson run this /\
       ExportData.pred_trans_rots doc = fmap (M:=list) pose7 <$> origs /\
       length (ExportData.pred_trans_rots doc)
       = length (originalTransformations this) /\
       (history_aligned this ->
        length (ExportData.pred_trans_rots doc)
        = length (transformations this)) /\
       Forall2 (fun entries recorded => length entries = length recorded)
         (ExportData.pred_trans_rots doc) (originalTransformations this) /\
       (Forall (fun recorded => length recorded = length (meshesFile this))
          (originalTransformations this) ->
        Forall (fun entries => length entries = ExportData.num_parts doc)
          (ExportData.pred_trans_rots doc)) /\
       Forall (Forall (fun entry => length entry = 7%nat))
         (ExportData.pred_trans_rots doc) /\
       ExportData.gt_trans_rots doc = pose7 <$> inits /\
       ExportData.removal_pieces doc = ""%string /\
       ExportData.redundant_pieces doc = ""%string /\
       ExportData.pieces doc = join "," (pieces this) /\
       (pieces this = name <$> meshesFile this ->
        ExportData.pieces doc = join "," (name <$> meshesFile this)) /\
       ExportData.mesh_scale doc = meshScale this /\
       ExportData.pointclouds doc = pointClouds this /\
       ExportData.name doc = run /\
       ExportData.num_parts doc = length (meshesFile this)) /\
  (forall (files : list File) (paths : list string) this0 (σ : store)
          (ops : list (operation num)),
     AssembleTask_new files paths = Returns this0 ->
     Forall (conforming_op (length files)) ops ->
     let this := (foldl (fun w o => perform o w) (this0, σ) ops).1 in
     exists doc,
       exportJson run this = (Returns doc, this) /\
       length (ExportData.pred_trans_rots doc)
       = length (transformations this) /\
       Forall (fun entries => length entries = length files)
         (ExportData.pred_trans_rots doc) /\
       Forall (Forall (fun entry => length entry = 7%nat))
         (ExportData.pred_trans_rots doc) /\
       ExportData.num_parts doc = length files /\
       ExportData.removal_pieces doc = ""%string /\
       ExportData.redundant_pieces doc = ""%string /\
       ExportData.pieces doc = join "," (name <$> files) /\
       ExportData.mesh_scale doc = meshScale this /\
       ExportData.pointclouds doc = pointClouds this) /\
  (forall this,
     (exportJson run this).2 = this /\
     exportJson run (exportJson run this).2 = exportJson run this).
Proof.
  assert (forall this (inits : list (Transformation num))
            (origs : list (list (Transformation num))),
            originalTransformations this
            = fmap (M:=list) of_Transformation <$> origs ->
            Forall2
              (fun entries recorded : list _ =>
                 length entries = length recorded)
              (fmap (M:=list) pose7 <$> origs) (originalTransformations this))
    as Hshape.
  { intros this inits origs ->.
    apply Forall2_fmap, Forall_Forall2_diag, Forall_forall.
    intros row _. by rewrite !length_fmap. }
  assert (forall origs : list (list (Transformation num)),
            Forall (Forall (fun entry : list num => length entry = 7%nat))
              (fmap (M:=list) pose7 <$> origs)) as Hseven.
  { intros origs. rewrite Forall_fmap. apply Forall_forall.
    intros row _. unfold compose.
    rewrite Forall_fmap. apply Forall_forall. intros t _. apply pose7_length. }
  split; [|split; [|done]].
  - intros this inits origs Hinits Horigs.
    pose proof (exportJson_returns run this inits origs Hinits Horigs)
      as Hexport.
    specialize (Hshape this inits origs Horigs).
    eexists. split; [exact Hexport|]. rewrite Hexport.
    cbn [fst snd ExportData.pred_trans_rots
      ExportData.gt_trans_rots ExportData.removal_pieces
      ExportData.redundant_pieces ExportData.pieces ExportData.mesh_scale
      ExportData.pointclouds ExportData.name ExportData.num_parts].
    split; [exact Hexport|]. split; [reflexivity|].
    split; [exact (Forall2_length _ _ _ Hshape)|].
    split.
    { intros Haligned. rewrite (Forall2_length _ _ _ Hshape).
      symmetry. exact (Forall2_length _ _ _ Haligned). }
    split; [exact Hshape|].
    split.
    { intros Hfragments. rewrite Horigs in Hfragments.
      rewrite Forall_fmap in Hfragments. rewrite Forall_fmap.
      eapply Forall_impl; [exact Hfragments|].
      intros row Hrow. unfold compose in *.
      rewrite length_fmap in Hrow. by rewrite length_fmap. }
    split; [apply Hseven|].
    do 4 (split; [reflexivity|]).
    split; [by intros ->|].
    repeat split.
  - intros files paths this0 σ ops Hnew Hops this.
    pose proof (conforming_run_well_recorded files paths this0 σ ops Hnew Hops)
      as (Hinit & Htyped & Hcount).
    pose proof (pieces_are_file_names files paths this0 σ ops Hnew)
      as [Hpieces Hfiles].
    pose proof (operations_aligned ops this0 σ
                  (AssembleTask_new_aligned files paths this0 Hnew))
      as Haligned.
    fold this in Hinit, Htyped, Hcount, Hpieces, Hfiles, Haligned.
    apply has_quaternion_of_Transformation in Hinit as [inits Hinits].
    apply have_quaternions_of_Transformation in Htyped as [origs Horigs].
    pose proof (exportJson_returns run this inits origs Hinits Horigs)
      as Hexport.
    specialize (Hshape this inits origs Horigs).
    eexists. split; [exact Hexport|].
    cbn [ExportData.pred_trans_rots ExportData.removal_pieces
      ExportData.redundant_pieces ExportData.pieces ExportData.mesh_scale
      ExportData.pointclouds ExportData.num_parts].
    split.
    { rewrite (Forall2_length _ _ _ Hshape).
      symmetry. exact (Forall2_length _ _ _ Haligned). }
    split.
    { rewrite Horigs, Hfiles in Hcount.
      rewrite Forall_fmap in Hcount. rewrite Forall_fmap.
      eapply Forall_impl; [exact Hcount|].
      intros row Hrow. unfold compose in *.
      rewrite length_fmap in Hrow. by rewrite length_fmap. }
    split; [apply Hseven|].
    rewrite Hpieces, Hfiles. repeat split.
Qed.

End ExportJson.

(** C8 as stated fails on a task whose backend reported, for a step,
    fewer poses than there are fragments: the task of the scenario, made
    from two files, after a run that delivers the input and then a step
    with the pose of the first fragment only, exports a [pred_trans_rots]
    whose entry for that step holds one pose, not two. *)
Lemma exportJson_short_step :
  AssembleTask_new Scenario.files [] = Returns Scenario.fresh /\
  exists doc,
    exportJson "demo"
      (foldl (fun w o => perform o w) (Scenario.fresh, Scenario.σ0)
         Scenario.short_run).1
    = (Returns doc,
       (foldl (fun w o => perform o w) (Scenario.fresh, Scenario.σ0)
          Scenario.short_run).1) /\
    ExportData.num_parts doc = 2%nat /\
    ExportData.pred_trans_rots doc = [[[1; 2; 3; 0; 0; 1; 0]]] /\
    ~ Forall (fun entries => length entries = ExportData.num_parts doc)
        (ExportData.pred_trans_rots doc).
Proof.
  split; [reflexivity|]. vm_compute. eexists. split; [reflexivity|].
  split; [reflexivity|]. split; [reflexivity|].
  intros Hall. apply Forall_cons_1 in Hall as [Hlen _]. discriminate Hlen.
Qed.

Lemma exportJson_document_witness :
  (exists doc,
     exportJson "demo" Scenario.completed = (Returns doc, Scenario.completed)
     /\
     ExportData.pred_trans_rots doc
     = [[[1; 2; 3; 0; 0; 1; 0]; [4; 5; 6; 1; 0; 0; 0]];
        [[2; 2; 2; 0; 0; 0; 1]; [3; 3; 3; 0; 1; 0; 0]]] /\
     length (ExportData.pred_trans_rots doc)
     = length (transformations Scenario.completed) /\
     Forall (fun entries => length entries = ExportData.num_parts doc)
       (ExportData.pred_trans_rots doc) /\
     ExportData.pieces doc = "a.obj,b.obj"%string) /\
  (exists doc,
     exportJson "demo"
       (foldl (fun w o => perform o w) (Scenario.fresh, Scenario.σ0)
          (call_startAssemble 1%positive :: (deliver <$> Scenario.exchange))).1
     = (Returns doc,
        (foldl (fun w o => perform o w) (Scenario.fresh, Scenario.σ0)
           (call_startAssemble 1%positive
            :: (deliver <$> Scenario.exchange))).1) /\
     Forall (fun entries => length entries = 2%nat)
       (ExportData.pred_trans_rots doc)).
Proof.
  destruct (exportJson_document (num:=Z) "demo") as (Hstate & Hrun & _).
  split.
  - destruct (Hstate Scenario.completed Scenario.initial
                [[mkTransformation (1, 2, 3) (0, 0, 1, 0);
                  mkTransformation (4, 5, 6) (1, 0, 0, 0)];
                 [mkTransformation (2, 2, 2) (0, 0, 0, 1);
                  mkTransformation (3, 3, 3) (0, 1, 0, 0)]])
      as (doc & Hdoc & _ & Hpred & _ & Hsteps & _ & Hfragments & _ & _ & _
          & _ & _ & Hpieces & _).
    + reflexivity.
    + reflexivity.
    + exists doc. split; [exact Hdoc|]. split; [exact Hpred|].
      split; [apply Hsteps; repeat constructor|].
      split; [apply Hfragments; repeat constructor|].
      apply Hpieces. reflexivity.
  - destruct (Hrun Scenario.files [] Scenario.fresh Scenario.σ0
                (call_startAssemble 1%positive
                 :: (deliver <$> Scenario.exchange)))
      as (doc & Hdoc & _ & Hfragments & _).
    + reflexivity.
    + repeat constructor.
    + exists doc. split; [exact Hdoc | exact Hfragments].
Defined.

(** ** Construction *)

Section Construction.
Context {num : Type} `{Number num}.

Lemma split_not_nil (sep : ascii) (s : string) : split sep s <> [].
Proof.
  destruct s as [|c s]; cbn; [done|].
  destruct (Ascii.eqb c sep); [done|]. by destruct (split sep s).
Qed.

Lemma split_single (sep : ascii) (s seg : string) :
  split sep s = [seg] -> seg = s.
Proof.
  revert seg. induction s as [|c s IH]; intros seg; cbn.
  - by intros [= <-].
  - pose proof (split_not_nil sep s) as Hne.
    destruct (Ascii.eqb c sep).
    + intros [= _ Hnil]. done.
    + destruct (split sep s) as [|seg' segs]; [done|].
      intros [= <- ->]. f_equal. by apply IH.
Qed.

(** A name is some text followed by its extension. *)
Lemma extension_is_suffix (name : string) :
  exists stem, name = String.append stem (extension name).
Proof.
  unfold extension. induction name as [|c name IH]; [by exists ""%string|].
  destruct IH as [stem IH]. cbn [split].
  pose proof (split_not_nil "." name) as Hne.
  pose proof (split_single "." name) as Hsingle.
  destruct (Ascii.eqb c ".").
  - exists (String c stem).
    destruct (split "." name) as [|seg segs]; [done|].
    rewrite last_cons_cons. rewrite IH at 1. reflexivity.
  - destruct (split "." name) as [|seg segs]; [done|].
    destruct segs as [|seg' segs].
    + exists ""%string. by rewrite (Hsingle seg eq_refl).
    + exists (String c stem). rewrite last_cons_cons in *.
      rewrite IH at 1. reflexivity.
Qed.

Lemma length_string_append (s1 s2 : string) :
  String.length (String.append s1 s2)
  = (String.length s1 + String.length s2)%nat.
Proof. induction s1 as [|c s1 IH]; simpl; [done|]. by f_equal. Qed.

Lemma substring_all (s : string) : substring 0 (String.length s) s = s.
Proof. induction s as [|c s IH]; simpl; [done|]. by f_equal. Qed.

Lemma substring_after (s1 s2 : string) :
  substring (String.length s1) (String.length s2) (String.append s1 s2) = s2.
Proof. induction s1 as [|c s1 IH]; simpl; [apply substring_all | exact IH]. Qed.

Lemma endsWith_append (stem suffix : string) :
  endsWith (String.append stem suffix) suffix = true.
Proof.
  unfold endsWith. rewrite length_string_append.
  apply andb_true_intro. split.
  - apply Nat.leb_le. lia.
  - replace (String.length stem + String.length suffix
             - String.length suffix)%nat
      with (String.length stem) by lia.
    rewrite substring_after. apply String.eqb_refl.
Qed.

Lemma endsWith_extension (name : string) :
  endsWith name (extension name) = true.
Proof.
  destruct (extension_is_suffix name) as [stem Hname].
  rewrite Hname at 1. apply endsWith_append.
Qed.

Lemma forallb_false {A} (f : A -> bool) (l : list A) :
  forallb f l = false <-> Exists (fun x => f x = false) l.
Proof.
  induction l as [|x l IH]; cbn.
  - split; [done | by intros Hex; inversion Hex].
  - destruct (f x) eqn:Hfx; cbn.
    + rewrite IH. split; [by right|].
      intros Hex. inversion Hex as [? ? Hx|? ? Hl]; [congruence | done].
    + split; [by left | done].
Qed.

Lemma supported_type (meshType : string) :
  meshType ∈ ["obj"; "ply"]%string
  <-> meshType = "obj"%string \/ meshType = "ply"%string.
Proof. rewrite !elem_of_cons, elem_of_nil. tauto. Qed.

(** The constructor throws in exactly three cases, which are the three
    tests it makes; [meshType] is the extension of the first file. *)
Lemma AssembleTask_new_throws (files : list File) (paths : list string) :
  let meshType := extension (default ""%string (name <$> files !! 0%nat)) in
  (exists e, AssembleTask_new (num:=num) files paths = Throws e /\
             InvalidInputError e)
  <-> (length files < 2)%nat \/
      ~ (meshType = "obj"%string \/ meshType = "ply"%string) \/
      Exists (fun file => endsWith (name file) meshType = false) files.
Proof.
  cbn zeta. unfold AssembleTask_new, InvalidInputError.
  fold (extension (default ""%string (name <$> files !! 0%nat))).
  set (meshType := extension _).
  destruct (Nat.ltb_spec (length files) 2) as [Hlen|Hlen].
  { split; [auto | eauto]. }
  destruct (bool_decide_reflect (meshType ∈ ["obj"; "ply"]%string))
    as [Hin|Hin]; rewrite supported_type in Hin; cbn [negb].
  - destruct (forallb _ files) eqn:Hall; cbn [negb].
    + split; [by intros (e & He & _)|].
      intros [Hlt|[Hty|Hex]]; [lia | done |].
      apply forallb_false in Hex. congruence.
    + split; [|eauto 6]. intros _. right. right. by apply forallb_false.
  - split; [auto | eauto 6].
Qed.

(** Two or more files that all have the extension [obj], or all [ply],
    make a task. *)
Lemma AssembleTask_new_uniform (files : list File) (paths : list string)
    (type : string) :
  (2 <= length files)%nat ->
  type = "obj"%string \/ type = "ply"%string ->
  Forall (fun file => extension (name file) = type) files ->
  exists this,
    AssembleTask_new (num:=num) files paths = Returns this /\
    meshType this = type /\
    pieces this = name <$> files.
Proof.
  intros Hlen Htype Hfiles.
  pose proof (AssembleTask_new_throws files paths) as Hthrows.
  cbn zeta in Hthrows.
  assert (extension (default ""%string (name <$> files !! 0%nat)) = type)
    as Hfirst.
  { destruct files as [|file files]; [cbn in Hlen; lia|].
    by inversion Hfiles. }
  rewrite Hfirst in Hthrows.
  unfold AssembleTask_new in *.
  fold (extension (default ""%string (name <$> files !! 0%nat))) in *.
  rewrite Hfirst in *.
  destruct (Nat.ltb_spec (length files) 2) as [?|_]; [lia|].
  destruct (bool_decide_reflect (type ∈ ["obj"; "ply"]%string)) as [_|Hin];
    [|by rewrite supported_type in Hin]. cbn [negb].
  destruct (forallb _ files) eqn:Hall; cbn [negb]; [eauto|].
  apply forallb_false, Exists_exists in Hall as (file & Hfile & Hends).
  rewrite Forall_forall in Hfiles. specialize (Hfiles file Hfile).
  rewrite <- Hfiles, endsWith_extension in Hends. done.
Qed.

End Construction.

(** C6, where the code departs from it. The second file's extension is
    [xobj], not the [obj] of the first, and yet the constructor makes the
    task: it compares the end of each name with the first extension
    ([endsWith]), not the extension. *)
Theorem constructor_accepts_other_extension :
  extension "a.obj" = "obj"%string /\
  extension "b.xobj" = "xobj"%string /\
  exists this : AssembleTask Z,
    AssembleTask_new [mkFile "a.obj"; mkFile "b.xobj"] [] = Returns this /\
    meshType this = "obj"%string.
Proof. split; [reflexivity|]. split; [reflexivity|]. by eexists. Qed.

(** * Further properties *)

(** ** The transformation algebra as a group *)

Section AlgebraLaws.
Context {num : Type} `{ExactArithmetic num}.
Local Open Scope num_scope.

Add Ring num_ring_laws : exact_ring.

Ltac tuples :=
  repeat match goal with
         | t : Transformation _ |- _ => destruct t as [[[? ?] ?] [[[? ?] ?] ?]]
         | q : Quat _ |- _ => destruct q as [[[? ?] ?] ?]
         | v : Vec3 _ |- _ => destruct v as [[? ?] ?]
         end.

Ltac by_components :=
  cbn;
  repeat match goal with
         | |- mkTransformation _ _ = mkTransformation _ _ => f_equal
         | |- (_, _) = (_, _) => f_equal
         end;
  try ring.

Lemma norm2_multiply (q1 q2 : Quat num) :
  norm2 (multiplyQuaternions q1 q2) = norm2 q1 * norm2 q2.
Proof. tuples. cbn. ring. Qed.

Lemma rotateVector_compose (q1 q2 : Quat num) (v : Vec3 num) :
  rotateVector (multiplyQuaternions q1 q2) v
  = rotateVector q1 (rotateVector q2 v).
Proof. tuples. by_components. Qed.

Lemma rotateVector_length2 (q : Quat num) (v : Vec3 num) :
  length2 (rotateVector q v) = norm2 q * norm2 q * length2 v.
Proof. tuples. cbn. ring. Qed.

(** X1. The quaternion product is associative, and the product of two
    unit quaternions is a unit quaternion. *)
Theorem multiplyQuaternions_assoc_unit (q1 q2 q3 : Quat num) :
  multiplyQuaternions (multiplyQuaternions q1 q2) q3
  = multiplyQuaternions q1 (multiplyQuaternions q2 q3) /\
  (unit_norm q1 -> unit_norm q2 -> unit_norm (multiplyQuaternions q1 q2)).
Proof.
  split.
  - tuples. by_components.
  - unfold unit_norm. intros H1 H2. rewrite norm2_multiply, H1, H2. ring.
Qed.

(** X2. Rotating by a product is rotating by the second factor, then by
    the first; rotating by [[1, 0, 0, 0]] changes nothing; and rotating by
    a unit quaternion keeps the length of a vector. *)
Theorem rotateVector_action (q1 q2 : Quat num) (v : Vec3 num) :
  rotateVector (multiplyQuaternions q1 q2) v
  = rotateVector q1 (rotateVector q2 v) /\
  rotateVector (num_one, num_zero, num_zero, num_zero) v = v /\
  (unit_norm q1 -> length2 (rotateVector q1 v) = length2 v).
Proof.
  split; [apply rotateVector_compose|]. split.
  - tuples. by_components.
  - unfold unit_norm. intros Hunit.
    rewrite rotateVector_length2, Hunit. ring.
Qed.

(** X3. Composition of transformations is associative and has the
    identity transform as a neutral element on both sides. *)
Theorem applyTransformation_monoid (a b c : Transformation num) :
  applyTransformation (applyTransformation a b) c
  = applyTransformation a (applyTransformation b c) /\
  applyTransformation identity a = a /\
  applyTransformation a identity = a.
Proof. tuples. repeat split; by_components. Qed.



Lemma inverse_inverse_scaled (t : Transformation num) :
  let n := norm2 (quaternion t) in
  let '(x, y, z) := translation t in
  inverse (inverse t)
  = mkTransformation (n * n * x, n * n * y, n * n * z) (quaternion t).
Proof. tuples. by_components. Qed.

Lemma inverse_compose_scaled (a b : Transformation num) :
  let n := norm2 (quaternion a) in
  let '(x, y, z) := translation (inverse b) in
  let '(x', y', z') :=
    translation (applyTransformation (inverse b) (inverse a)) in
  inverse (applyTransformation a b)
  = mkTransformation
      (x' + (n * n - num_one) * x, y' + (n * n - num_one) * y,
       z' + (n * n - num_one) * z)
      (quaternion (applyTransformation (inverse b) (inverse a))).
Proof. tuples. by_components. Qed.

(** X5. For poses with unit quaternions, inverting twice gives the pose
    back, and the inverse of a composition is the composition of the
    inverses in the opposite order. *)
Theorem inverse_antihomomorphism (a b : Transformation num) :
  unit_norm (quaternion a) ->
  inverse (inverse a) = a /\
  inverse (applyTransformation a b)
  = applyTransformation (inverse b) (inverse a).
Proof.
  unfold unit_norm. intros Ha. split.
  - pose proof (inverse_inverse_scaled a) as Hinv. cbn zeta in Hinv.
    rewrite Ha in Hinv. tuples. cbn in Hinv |- *. rewrite Hinv.
    by_components.
  - pose proof (inverse_compose_scaled a b) as Hinv. cbn zeta in Hinv.
    rewrite Ha in Hinv.
    destruct (translation (inverse b)) as [[x y] z].
    destruct (applyTransformation (inverse b) (inverse a))
      as [[[x' y'] z'] q'].
    cbn [translation quaternion] in Hinv. rewrite Hinv. by_components.
Qed.

Lemma denormalize_scaled (raw init : Transformation num) :
  let n := norm2 (quaternion init) in
  let '(w, x, y, z) := quaternion raw in
  applyTransformation (applyTransformation raw (inverse init)) init
  = mkTransformation (translation raw) (n * w, n * x, n * y, n * z).
Proof. tuples. by_components. Qed.

(** X6. Normalization loses nothing: a raw pose composed with the inverse
    of a unit-norm initial pose, composed again with that initial pose, is
    the raw pose. *)
Theorem normalized_then_initial (raw init : Transformation num) :
  unit_norm (quaternion init) ->
  applyTransformation (applyTransformation raw (inverse init)) init = raw.
Proof.
  unfold unit_norm. intros Hunit.
  pose proof (denormalize_scaled raw init) as Hback. cbn zeta in Hback.
  rewrite Hunit in Hback. tuples. cbn [quaternion translation] in Hback.
  rewrite Hback. by_components.
Qed.

End AlgebraLaws.

(** ** The cursor and the status, as observers see them *)

Section Observers.
Context {num : Type} `{Number num}.
Implicit Types this : AssembleTask num.

Lemma handle_status_fields (stage : string) this :
  let this' := (handle_status stage this).1 in
  same_history this this' /\
  _currentStep this' = _currentStep this /\
  _totalSteps this' = _totalSteps this /\
  initial_transformations this' = initial_transformations this /\
  fractureSurfaces this' = fractureSurfaces this.
Proof.
  cbn zeta. unfold handle_status.
  by destruct (String.eqb stage "pending"), (String.eqb stage "generating"),
    (String.eqb stage "error"), (String.eqb stage "complete").
Qed.

Lemma handle_msg_cursor (msg : submission_msg num) this :
  cursor_in_domain this -> cursor_in_domain (handle_msg msg this).1.1.
Proof.
  unfold cursor_in_domain. intros Hdom.
  destruct msg as [stage|data|]; cbn [handle_msg]; [| |done].
  - pose proof (handle_status_fields stage this) as ([Hh _] & Hc & _).
    destruct (handle_status stage this) as [this' evs]. cbn in *.
    by rewrite Hh, Hc.
  - destruct (data !! 0%nat) as [d|]; [|done].
    destruct d as [d|pcs itrans irot|d|translation rotation step iter|d];
      cbn [handle_payload]; [| | | |done].
    + by destruct (decide (d <> meshScale this)).
    + cbn. lia.
    + by destruct (length (transformations this) <=? 5)%nat.
    + destruct (map_throwing _ translation); [|done].
      cbn. rewrite length_app. cbn. lia.
Qed.

Lemma perform_cursor (o : operation num) this (σ : store) :
  cursor_in_domain this -> cursor_in_domain (perform o (this, σ)).1.
Proof.
  intros Hdom. destruct o as [settings|msg|step|index obj|name]; cbn.
  - unfold startAssemble_open.
    destruct (in_flight (status this)); [done|].
    destruct (σ !! settings); [|done]. unfold cursor_in_domain. cbn. lia.
  - by apply handle_msg_cursor.
  - unfold set_currentStep.
    destruct (Z.ltb_spec step (-2)); [done|].
    destruct (Z.geb_spec step (Z.of_nat (length (transformations this))));
      [done|].
    unfold cursor_in_domain. cbn. lia.
  - unfold setObject. by destruct (forallb _ _).
  - done.
Qed.

(** X7. The cursor never leaves its domain: it is between [-2] and the
    last recorded step after construction and after every operation,
    whatever the backend sends and whatever the caller assigns. So a
    query at the cursor, unless the cursor is [-1], never throws: the step
    it asks for is recorded. *)
Theorem cursor_stays_in_domain (files : list File) (paths : list string)
    this0 (σ : store) (ops : list (operation num)) :
  AssembleTask_new files paths = Returns this0 ->
  let this := (foldl (fun w o => perform o w) (this0, σ) ops).1 in
  cursor_in_domain this /\
  (currentStep this <> -1 ->
   forall index, exists r, getTransformation index None this = Returns r).
Proof.
  intros Hnew this.
  assert (cursor_in_domain this) as Hdom.
  { subst this.
    assert (cursor_in_domain this0) as Hstart.
    { unfold AssembleTask_new in Hnew.
      repeat (match type of Hnew with
              | (if ?c then _ else _) = _ => destruct c
              end; try discriminate Hnew).
      injection Hnew as <-. unfold cursor_in_domain. cbn. lia. }
    clear Hnew. revert this0 σ Hstart.
    induction ops as [|o ops IH]; intros this0 σ Hstart; [done|].
    cbn [foldl].
    pose proof (perform_cursor o this0 σ Hstart) as Hnext.
    destruct (perform o (this0, σ)) as [this' σ']. by apply IH. }
  split; [exact Hdom|].
  intros Hcursor index. unfold getTransformation, currentStep in *. cbn.
  unfold cursor_in_domain in Hdom.
  destruct (Z.eqb_spec (_currentStep this) (-2)); [by eexists|].
  destruct (Z.eqb_spec (_currentStep this) (-1)); [done|].
  destruct (js_index_in_range (transformations this) (_currentStep this))
    as [row Hrow]; [lia|].
  rewrite Hrow. by eexists.
Qed.

End Observers.

Lemma cursor_stays_in_domain_witness :
  cursor_in_domain
    (foldl (fun w o => perform o w) (Scenario.fresh, Scenario.σ0)
       (call_startAssemble 1%positive :: (deliver <$> Scenario.exchange))).1.
Proof.
  apply (cursor_stays_in_domain Scenario.files [] Scenario.fresh Scenario.σ0
           (call_startAssemble 1%positive :: (deliver <$> Scenario.exchange))).
  reflexivity.
Defined.

(** ** What one message, and a whole exchange, may do *)

Section Exchange.
Context {num : Type} `{Number num}.
Implicit Types this : AssembleTask num.

Ltac each_event :=
  repeat match goal with
         | |- Forall _ [] => constructor
         | |- Forall _ (_ :: _) =>
             constructor;
             [cbn; intros; simplify_eq; unfold message_status; auto|]
         end.

Lemma handle_status_effects (stage : string) this :
  let '(this', evs) := handle_status stage this in
  in_step this this' evs /\
  totals_are (_totalSteps this) evs /\
  Forall (fun ev => forall st, announced_status ev = Some st ->
                               message_status st) evs /\
  Forall (fun ev => is_recvFractureSurfaces ev = false) evs.
Proof.
  unfold handle_status, in_step, totals_are.
  destruct (String.eqb stage "pending"), (String.eqb stage "generating"),
    (String.eqb stage "error"), (String.eqb stage "complete"); cbn;
    (split; [done|]); repeat split; each_event.
Qed.

(** Everything a single message can do to the task. *)
Lemma handle_msg_effects (msg : submission_msg num) this :
  let '(this', evs, err) := handle_msg msg this in
  in_step this this' evs /\
  _totalSteps this' = _totalSteps this /\
  totals_are (_totalSteps this) evs /\
  Forall (fun ev => forall st, announced_status ev = Some st ->
                               message_status st) evs /\
  transformations this `prefix_of` transformations this' /\
  originalTransformations this `prefix_of` originalTransformations this' /\
  ((6 <= length (transformations this))%nat ->
   fractureSurfaces this' = fractureSurfaces this /\
   Forall (fun ev => is_recvFractureSurfaces ev = false) evs) /\
  (err <> None -> this' = this /\ evs = []).
Proof.
  unfold totals_are.
  destruct msg as [stage|data|]; cbn [handle_msg].
  - pose proof (handle_status_effects stage this) as Heff.
    pose proof (handle_status_fields stage this) as Hfields.
    destruct (handle_status stage this) as [this' evs].
    destruct Heff as (Hstep & Htotals & Hstatus & Hfrac).
    destruct Hfields as ([Hh Ho] & _ & Htotal & _ & Hsurf). cbn [fst] in *.
    rewrite Hh, Ho. unfold totals_are in Htotals.
    repeat split; try done; apply Hstep.
  - destruct (data !! 0%nat) as [d|];
      [|repeat split; try done; each_event].
    destruct d as [d|pcs itrans irot|d|translation rotation step iter|d];
      cbn [handle_payload].
    + destruct (decide (d <> meshScale this));
        repeat split; try done; each_event.
    + repeat split; try done; each_event.
    + destruct (Nat.leb_spec (length (transformations this)) 5);
        repeat split; try done; try lia; each_event.
    + destruct (map_throwing _ translation) as [normalized|e];
        [|repeat split; try done; each_event].
      unfold in_step. cbn.
      repeat split; try done; try (by apply prefix_app_r); each_event.
    + repeat split; try done; each_event.
  - repeat split; try done; each_event.
Qed.

Lemma in_step_app this this' this'' (evs later : list (event num)) :
  in_step this this' evs -> in_step this' this'' later ->
  in_step this this'' (evs ++ later).
Proof.
  unfold in_step, last_step, last_status. intros [Hc Hs] [Hc' Hs'].
  rewrite !omap_app, !last_app, Hc', Hs', Hc, Hs.
  by destruct (last (omap step_index later)),
    (last (omap announced_status later)).
Qed.

(** Everything a whole exchange can do to the task. *)
Lemma consume_effects (submission : list (submission_msg num)) this :
  let '(final, evs, err) := consume submission this in
  in_step this final evs /\
  _totalSteps final = _totalSteps this /\
  totals_are (_totalSteps this) evs /\
  Forall (fun ev => forall st, announced_status ev = Some st ->
                               message_status st) evs /\
  transformations this `prefix_of` transformations final /\
  originalTransformations this `prefix_of` originalTransformations final /\
  ((6 <= length (transformations this))%nat ->
   fractureSurfaces final = fractureSurfaces this /\
   Forall (fun ev => is_recvFractureSurfaces ev = false) evs).
Proof.
  revert this. induction submission as [|msg rest IH]; intros this.
  { cbn. repeat split; try done; constructor. }
  cbn [consume].
  pose proof (handle_msg_effects msg this) as Hmsg.
  destruct (handle_msg msg this) as [[this' evs] err].
  destruct Hmsg as (Hstep & Htotal & Htotals & Hstatus & Hpre & Hpre' & Hfrac
                    & Herr).
  destruct err as [e|].
  { do 6 (split; [assumption|]). exact Hfrac. }
  specialize (IH this').
  destruct (consume rest this') as [[final later] err].
  destruct IH as (Hstep2 & Htotal2 & Htotals2 & Hstatus2 & Hpre2 & Hpre2'
                  & Hfrac2).
  split; [by eapply in_step_app|].
  split; [congruence|].
  split; [apply Forall_app; split; [done | by rewrite <- Htotal]|].
  split; [by apply Forall_app|].
  split; [by etrans|]. split; [by etrans|].
  intros Hlen. destruct (Hfrac Hlen) as [Hsurf Hevs].
  destruct Hfrac2 as [Hsurf2 Hevs2].
  { apply prefix_length in Hpre. lia. }
  split; [congruence | by apply Forall_app].
Qed.

Lemma emitted_Emit (evs : list (event num)) : emitted (Emit <$> evs) = evs.
Proof. induction evs as [|ev evs IH]; [done|]. cbn. by f_equal. Qed.

Lemma emitted_app (t1 t2 : list (effect num)) :
  emitted (t1 ++ t2) = emitted t1 ++ emitted t2.
Proof. apply omap_app. Qed.

(** The whole call, once past the guard: the opening, then the exchange. *)
Lemma startAssemble_passes (settings : ref)
    (submission : list (submission_msg num)) this (σ : store) s :
  ~ running (status this) ->
  σ !! settings = Some s ->
  exists opened,
    (startAssemble_open settings this σ).1.1.1 = opened /\
    status opened = REQUESTED /\
    _currentStep opened = -2 /\
    _totalSteps opened = totalSteps_of s /\
    transformations opened = [] /\
    fractureSurfaces opened = fractureSurfaces this /\
    pointClouds opened = pointClouds this /\
    meshScale opened = meshScale this /\
    (startAssemble settings submission this σ).1.1.1
    = (consume submission opened).1.1 /\
    (startAssemble settings submission this σ).1.1.2
    = <[settings := drop_empty_checkpoints s]> σ /\
    emitted (startAssemble settings submission this σ).1.2
    = emit_statusUpdate REQUESTED None
      :: emit_step (-2) (totalSteps_of s)
      :: (consume submission opened).1.2 /\
    (startAssemble settings submission this σ).2
    = (consume submission opened).2.
Proof.
  intros Hrun Hs.
  destruct (startAssemble_open_passes _ _ _ _ Hrun Hs)
    as (this' & submit & Hopen & Hthis' & Hsubmit).
  exists this'. unfold startAssemble. rewrite Hopen. cbn [fst snd].
  destruct (consume submission this') as [[final evs] err]. cbn [fst snd].
  rewrite emitted_app, emitted_Emit.
  rewrite Hthis' at 2 3 4 5 6 7 8. cbn.
  repeat split; try done.
  - by rewrite Hthis'.
  - by destruct Hsubmit as [-> | ->]; rewrite Hthis'.
Qed.


(** X9. The total of a run is fixed when it starts: every [step] event
    and every progress report of the call carries
    [steps * maxIterations + (oneStepInit ? 1 : 0)], and that is what the
    task holds at the end, whatever the backend sent. *)
Theorem total_fixed_for_the_run (settings : ref)
    (submission : list (submission_msg num)) this (σ : store) s :
  ~ running (status this) ->
  σ !! settings = Some s ->
  let total :=
    steps s * maxIterations s + (if oneStepInit s then 1 else 0) in
  _totalSteps (startAssemble settings submission this σ).1.1.1 = total /\
  totals_are total (emitted (startAssemble settings submission this σ).1.2).
Proof.
  intros Hrun Hs total.
  destruct (startAssemble_passes settings submission this σ s Hrun Hs)
    as (opened & _ & _ & _ & Htotal & _ & _ & _ & _ & -> & _ & -> & _).
  pose proof (consume_effects submission opened) as Hrest.
  destruct (consume submission opened) as [[final evs] err].
  destruct Hrest as (_ & Hfinal & Htotals & _). cbn [fst snd].
  fold total in Htotal. unfold totalSteps_of in Htotal. rewrite Htotal in *.
  split; [exact Hfinal|].
  constructor; [by intros t [= <-]|].
  constructor; [by intros t [= <-]|]. exact Htotals.
Qed.

(** X10. During an exchange the histories only grow: what was recorded
    stays recorded, in place, so a query for a recorded step gives the
    same pose after any further messages. *)
Theorem histories_append_only (submission : list (submission_msg num)) this :
  let final := (consume submission this).1.1 in
  transformations this `prefix_of` transformations final /\
  originalTransformations this `prefix_of` originalTransformations final /\
  forall (index s : Z),
    0 <= s < Z.of_nat (length (transformations this)) ->
    getTransformation index (Some s) final
    = getTransformation index (Some s) this.
Proof.
  cbn zeta. pose proof (consume_effects submission this) as Hrest.
  destruct (consume submission this) as [[final evs] err].
  destruct Hrest as (_ & _ & _ & _ & Hpre & Hpre' & _). cbn [fst].
  split; [done|]. split; [done|].
  intros index s Hs. unfold getTransformation. cbn.
  destruct (Z.eqb_spec s (-2)); [lia|].
  destruct (Z.eqb_spec s (-1)); [lia|].
  destruct Hpre as [more ->]. unfold js_index.
  destruct (Z.ltb_spec s 0); [lia|].
  rewrite lookup_app_l by lia. done.
Qed.

(** X11. Once six steps are recorded, no message of the exchange changes
    the fracture surfaces any more, and none is announced: the window does
    not reopen while the exchange lasts. *)
Theorem fracture_window_stays_closed
    (submission : list (submission_msg num)) this :
  (6 <= length (transformations this))%nat ->
  let final := (consume submission this).1.1 in
  fractureSurfaces final = fractureSurfaces this /\
  (forall index, getFractureSurface index final
                 = getFractureSurface index this) /\
  Forall (fun ev => is_recvFractureSurfaces ev = false)
    (consume submission this).1.2.
Proof.
  intros Hlen. cbn zeta.
  pose proof (consume_effects submission this) as Hrest.
  destruct (consume submission this) as [[final evs] err].
  destruct Hrest as (_ & _ & _ & _ & _ & _ & Hfrac). cbn [fst snd].
  destruct (Hfrac Hlen) as [Hsurf Hevs].
  split; [done|]. split; [|done].
  intros index. unfold getFractureSurface. by rewrite Hsurf.
Qed.

(** X12. A call of [startAssemble] that settles, by the end of the
    exchange or by a message that throws, without having announced
    COMPLETED or FAILED leaves the task with a run under way, and the task
    then refuses every further [startAssemble]. *)
Theorem unfinished_run_blocks_restart (settings : ref)
    (submission : list (submission_msg num)) this (σ : store) s :
  ~ running (status this) ->
  σ !! settings = Some s ->
  let final := (startAssemble settings submission this σ).1.1.1 in
  let σ' := (startAssemble settings submission this σ).1.1.2 in
  Forall (fun ev => ~ announces_end ev)
    (emitted (startAssemble settings submission this σ).1.2) ->
  running (status final) /\
  forall settings' submission',
    startAssemble settings' submission' final σ'
    = (final, σ', [], Some AlreadyRunningError).
Proof.
  intros Hrun Hs final σ' Hquiet.
  assert (running (status final)) as Hfinal.
  { subst final.
    destruct (startAssemble_passes settings submission this σ s Hrun Hs)
      as (opened & _ & Hopened & _ & _ & _ & _ & _ & _ & -> & _ & Hevents
          & _).
    rewrite Hevents in Hquiet.
    pose proof (consume_effects submission opened) as Hrest.
    destruct (consume submission opened) as [[ended evs] err].
    destruct Hrest as ([_ Hstatus] & _ & _ & Hmsg & _). cbn [fst snd] in *.
    rewrite Hopened in Hstatus. unfold last_status in Hstatus.
    destruct (last (omap announced_status evs)) as [st|] eqn:Hlast;
      cbn in Hstatus; rewrite Hstatus; [|by left].
    apply last_Some_elem_of, list_elem_of_omap in Hlast
      as (ev & Hev & Hst).
    rewrite Forall_forall in Hmsg. specialize (Hmsg ev Hev st Hst).
    apply Forall_cons in Hquiet as [_ Hquiet].
    apply Forall_cons in Hquiet as [_ Hquiet].
    rewrite Forall_forall in Hquiet. specialize (Hquiet ev Hev).
    unfold announces_end in Hquiet. rewrite Hst in Hquiet.
    unfold running.
    destruct Hmsg as [-> | [-> | [-> | ->]]]; auto; exfalso; apply Hquiet; auto. }
  split; [exact Hfinal|].
  intros settings' submission'. apply in_flight_running in Hfinal.
  unfold startAssemble, startAssemble_open. by rewrite Hfinal.
Qed.

End Exchange.

(** ** Queries at the edges *)

Section QueryEdges.
Context {num : Type} `{Number num}.
Implicit Types this : AssembleTask num.

Lemma js_index_None {A} (l : list A) (i : Z) :
  js_index l i = None <-> ~ (0 <= i < Z.of_nat (length l)).
Proof.
  unfold js_index. destruct (Z.ltb_spec i 0); [split; [intros _; lia | done]|].
  rewrite lookup_ge_None. lia.
Qed.

Lemma well_formed_Returns (o : TransformationObj num) (t : Transformation num) :
  well_formed o = Returns t <-> o = of_Transformation t.
Proof.
  unfold well_formed, of_Transformation.
  destruct o as [trans [q|]], t as [trans' q']; cbn; split; intros Heq;
    try discriminate Heq; by simplify_eq.
Qed.

Lemma well_formed_Throws (o : TransformationObj num) (e : error) :
  well_formed o = Throws e ->
  e = TypeError /\ forall t, o <> of_Transformation t.
Proof.
  unfold well_formed, of_Transformation.
  destruct o as [trans [q|]]; cbn; intros Heq; simplify_eq.
  split; [done|]. by intros [trans' q'].
Qed.

(** X13. [getTransformation] throws only a [TypeError], and exactly in
    two cases: at step [-1] when no well-formed initial transformation is
    recorded for the fragment, and at a step other than [-2] and [-1] that
    is not a recorded step. A fragment index outside a recorded step does
    not throw: the result is [undefined]. *)
Theorem getTransformation_throws (index s : Z) this :
  (forall e, getTransformation index (Some s) this = Throws e ->
             e = TypeError) /\
  (getTransformation index (Some s) this = Throws TypeError <->
   (s = -1 /\
    forall init, js_index (initial_transformations this) index
                 <> Some (of_Transformation init)) \/
   (s <> -2 /\ s <> -1 /\
    ~ (0 <= s < Z.of_nat (length (transformations this))))) /\
  (forall row,
     js_index (transformations this) s = Some row ->
     0 <= s ->
     js_index row index = None ->
     getTransformation index (Some s) this = Returns None).
Proof.
  unfold getTransformation. cbn [default from_option id].
  destruct (Z.eqb_spec s (-2)) as [->|Hs2].
  { split; [done|]. split; [split; [done | intros [[? _]|[? _]]; lia]|].
    intros; lia. }
  destruct (Z.eqb_spec s (-1)) as [->|Hs1].
  { destruct (js_index (initial_transformations this) index) as [o|] eqn:Ho.
    - destruct (well_formed o) as [init|e] eqn:Hwf; cbn.
      + apply well_formed_Returns in Hwf as ->.
        split; [done|]. split; [|intros; lia].
        split; [done|]. intros [[_ Hno]|[_ [? _]]]; [|lia].
        by destruct (Hno init).
      + apply well_formed_Throws in Hwf as [-> Hno].
        split; [by intros ? [= <-]|]. split; [|intros; lia].
        split; [|done]. intros _. left. split; [done|].
        intros init [= ->]. by eapply Hno.
    - split; [by intros ? [= <-]|]. split; [|intros; lia].
      split; [|done]. intros _. left. by split. }
  destruct (js_index (transformations this) s) as [row|] eqn:Hrow.
  - split; [done|]. split.
    + split; [done|]. intros [[? _]|(_ & _ & Hout)]; [lia|].
      apply js_index_None in Hout. congruence.
    + by intros ? [= <-] _ ->.
  - split; [by intros ? [= <-]|]. split; [|done].
    split; [|done]. intros _. right. by apply js_index_None in Hrow.
Qed.

(** X14. [getTransformations] and [getTransformation] agree: the list has
    one entry for each recorded step, and its entry for step [s] is what
    [getTransformation] returns for [s]. *)
Theorem getTransformations_agrees (index : Z) this :
  length (getTransformations index this) = length (transformations this) /\
  forall (s : nat) r,
    getTransformations index this !! s = Some r <->
    (s < length (transformations this))%nat /\
    getTransformation index (Some (Z.of_nat s)) this = Returns r.
Proof.
  unfold getTransformations. split; [apply length_fmap|].
  intros s r. rewrite list_lookup_fmap.
  unfold getTransformation. cbn [default from_option id].
  destruct (Z.eqb_spec (Z.of_nat s) (-2)); [lia|].
  destruct (Z.eqb_spec (Z.of_nat s) (-1)); [lia|].
  rewrite js_index_nat.
  destruct (transformations this !! s) as [row|] eqn:Hrow; cbn.
  - apply lookup_lt_Some in Hrow. split; [by intros [= <-] | by intros [_ [= <-]]].
  - split; [done | by intros [_ ?]].
Qed.

End QueryEdges.

(** ** Messages that do not fit *)

Section Misfits.
Context {num : Type} `{Number num}.
Implicit Types this : AssembleTask num.

Lemma map_throwing_from_Returns {A B} (f : A -> nat -> result B) (idx : nat)
    (l : list A) :
  (exists out, map_throwing_from f idx l = Returns out) <->
  forall j a, l !! j = Some a -> exists b, f a (idx + j)%nat = Returns b.
Proof.
  revert idx. induction l as [|a l IH]; intros idx; cbn.
  { split; [by intros _ j a Hj | by eexists]. }
  split.
  - intros [out Hout].
    destruct (f a idx) as [b|e] eqn:Hb; cbn in Hout; [|done].
    destruct (map_throwing_from f (S idx) l) as [bs|e] eqn:Hbs;
      cbn in Hout; [|done].
    intros [|j] a' Hj; cbn in Hj.
    + injection Hj as <-. rewrite Nat.add_0_r. eauto.
    + destruct (proj1 (IH (S idx))) with j a' as [b' Hb']; eauto.
      exists b'. by rewrite Nat.add_succ_r.
  - intros Hall.
    destruct (Hall 0%nat a eq_refl) as [b Hb].
    rewrite Nat.add_0_r in Hb. rewrite Hb. cbn.
    destruct (proj2 (IH (S idx))) as [bs ->]; [|by eexists].
    intros j a' Hj. destruct (Hall (S j) a' Hj) as [b' Hb'].
    exists b'. by rewrite Nat.add_succ_r in Hb'.
Qed.

Lemma map_throwing_from_TypeError {A B} (f : A -> nat -> result B)
    (idx : nat) (l : list A) (e : error) :
  (forall a i e', f a i = Throws e' -> e' = TypeError) ->
  map_throwing_from f idx l = Throws e -> e = TypeError.
Proof.
  intros Hf. revert idx. induction l as [|a l IH]; intros idx; cbn; [done|].
  destruct (f a idx) as [b|e'] eqn:Hb; cbn.
  - destruct (map_throwing_from f (S idx) l) as [bs|e'] eqn:Hbs; cbn; [done|].
    intros [= <-]. by eapply IH.
  - intros [= <-]. by eapply Hf.
Qed.

Lemma normalized_pose_Returns (initial : list (TransformationObj num))
    (rotation : list (Quat num)) (trans : Vec3 num) (idx : nat) :
  (exists pose, normalized_pose initial rotation trans idx = Returns pose) <->
  is_Some (rotation !! idx) /\
  exists init, initial !! idx = Some (of_Transformation init).
Proof.
  unfold normalized_pose, raw_pose, well_formed.
  destruct (initial !! idx) as [[itrans [iq|]]|]; cbn.
  - destruct (rotation !! idx) as [rot|]; cbn.
    + split; [|by eexists]. intros _. split; [by eexists|].
      by exists (mkTransformation itrans iq).
    + split; [by intros [? ?] | by intros [[? ?] _]].
  - split; [by intros [? ?]|]. by intros [_ [[? ?] ?]].
  - split; [by intros [? ?]|]. by intros [_ [? ?]].
Qed.

Lemma normalized_pose_TypeError (initial : list (TransformationObj num))
    (rotation : list (Quat num)) (trans : Vec3 num) (idx : nat) (e : error) :
  normalized_pose initial rotation trans idx = Throws e -> e = TypeError.
Proof.
  unfold normalized_pose, raw_pose, well_formed.
  destruct (initial !! idx) as [[itrans [iq|]]|]; cbn;
    [destruct (rotation !! idx); cbn| |]; by intros [= <-].
Qed.

(** X15. A "transformation" payload is recorded exactly when every
    translation it reports comes with a rotation and with a well-formed
    initial transformation at the same index. Otherwise the handler throws
    a [TypeError] and the task is as it was: nothing is recorded, nothing
    is emitted. In particular a payload with at least one translation
    that arrives before any "input" payload throws. *)
Theorem transformation_message_fits this
    (translation : list (Vec3 num)) (rotation : list (Quat num))
    (step iter : Z) :
  let msg := msg_data [transformation translation rotation step iter] in
  let fits :=
    forall idx, (idx < length translation)%nat ->
      is_Some (rotation !! idx) /\
      exists init,
        initial_transformations this !! idx = Some (of_Transformation init) in
  ((handle_msg msg this).2 = None <-> fits) /\
  ((handle_msg msg this).2 <> None ->
   handle_msg msg this = (this, [], Some TypeError)) /\
  (initial_transformations this = [] -> translation <> [] ->
   handle_msg msg this = (this, [], Some TypeError)).
Proof.
  cbn zeta. cbn [handle_msg lookup list_lookup handle_payload].
  cbn [list_lookup].
  pose proof (map_throwing_from_Returns
                (normalized_pose (initial_transformations this) rotation)
                0 translation) as Hreturns.
  pose proof (map_throwing_from_TypeError
                (normalized_pose (initial_transformations this) rotation)
                0 translation) as Hthrows.
  unfold map_throwing.
  destruct (map_throwing_from _ 0 translation) as [normalized|e] eqn:Hmap.
  - assert (forall idx, (idx < length translation)%nat ->
              is_Some (rotation !! idx) /\
              exists init,
                initial_transformations this !! idx
                = Some (of_Transformation init)) as Hfits.
    { intros idx Hidx.
      destruct (lookup_lt_is_Some_2 translation idx Hidx) as [trans Htrans].
      apply (normalized_pose_Returns _ _ trans idx).
      by apply (proj1 Hreturns (ex_intro _ normalized eq_refl) idx trans). }
    cbn [snd]. split; [done|]. split; [done|].
    intros Hnone Hsome. destruct translation as [|trans translation]; [done|].
    destruct (Hfits 0%nat) as [_ [init Hinit]]; [cbn; lia|].
    by rewrite Hnone in Hinit.
  - assert (e = TypeError) as ->.
    { eapply Hthrows; [|done]. intros a i e'. apply normalized_pose_TypeError. }
    cbn [snd]. split; [|by split].
    split; [done|]. intros Hfits. exfalso.
    destruct (proj2 Hreturns) as [out Hout]; [|done].
    intros idx trans Htrans. apply normalized_pose_Returns.
    apply Hfits. by apply lookup_lt_Some in Htrans.
Qed.

Lemma flatten_Returns (o : TransformationObj num) :
  (exists l, flatten o = Returns l) <-> has_quaternion o.
Proof.
  unfold flatten, has_quaternion.
  destruct o as [[[tx ty] tz] [[[[qw qx] qy] qz]|]]; cbn.
  - split; [by eexists | by eexists].
  - split; [by intros [? ?] | by intros [? ?]].
Qed.

Lemma flatten_TypeError (o : TransformationObj num) (e : error) :
  flatten o = Throws e -> e = TypeError.
Proof.
  unfold flatten.
  destruct o as [[[tx ty] tz] [[[[qw qx] qy] qz]|]]; cbn; by intros [= <-].
Qed.

Lemma handle_msg_recorded_typed (msg : submission_msg num) this :
  Forall (Forall has_quaternion) (originalTransformations this) ->
  Forall (Forall has_quaternion)
    (originalTransformations (handle_msg msg this).1.1).
Proof.
  intros Htyped.
  destruct msg as [stage|data|]; cbn [handle_msg]; [| |done].
  - pose proof (handle_status_fields stage this) as ([_ Ho] & _).
    destruct (handle_status stage this) as [this' evs]. cbn [fst] in *.
    by rewrite Ho.
  - destruct (data !! 0%nat) as [d|]; [|done].
    destruct d as [d|pcs itrans irot|d|translation rotation step iter|d];
      cbn [handle_payload]; [|done| | |done].
    + by destruct (decide (d <> meshScale this)).
    + by destruct (length (transformations this) <=? 5)%nat.
    + destruct (map_throwing _ translation) as [normalized|e] eqn:Hmap;
        [|done].
      apply normalized_poses_need_rotations in Hmap. cbn in Hmap |- *.
      apply Forall_app. split; [done|]. by constructor.
Qed.

(** X16. Whatever the backend sends, every raw pose the task records has
    its quaternion. So on a task reached from the constructor by any
    operations, [exportJson] can only fail on the initial
    transformations: it returns a document exactly when each of them has
    its quaternion, and otherwise throws a [TypeError], leaving the task
    as it is. *)
Theorem recorded_poses_well_formed (files : list File) (paths : list string)
    this0 (σ : store) (ops : list (operation num)) (run : string) :
  AssembleTask_new files paths = Returns this0 ->
  let this := (foldl (fun w o => perform o w) (this0, σ) ops).1 in
  Forall (Forall has_quaternion) (originalTransformations this) /\
  ((exists doc, exportJson run this = (Returns doc, this)) <->
   Forall has_quaternion (initial_transformations this)) /\
  (~ Forall has_quaternion (initial_transformations this) ->
   exportJson run this = (Throws TypeError, this)).
Proof.
  intros Hnew this.
  assert (Forall (Forall has_quaternion) (originalTransformations this))
    as Htyped.
  { subst this.
    assert (Forall (Forall has_quaternion) (originalTransformations this0))
      as Hstart.
    { unfold AssembleTask_new in Hnew.
      repeat (match type of Hnew with
              | (if ?c then _ else _) = _ => destruct c
              end; try discriminate Hnew).
      injection Hnew as <-. constructor. }
    clear Hnew. revert this0 σ Hstart.
    induction ops as [|o ops IH]; intros this0 σ Hstart; [done|].
    cbn [foldl].
    assert (Forall (Forall has_quaternion)
              (originalTransformations (perform o (this0, σ)).1)) as Hnext.
    { destruct o as [settings|msg|step|index obj|name]; cbn.
      - unfold startAssemble_open.
        destruct (in_flight (status this0)); [done|].
        destruct (σ !! settings); [|done]. constructor.
      - by apply handle_msg_recorded_typed.
      - unfold set_currentStep. by destruct (_ || _).
      - unfold setObject. by destruct (forallb _ _).
      - done. }
    destruct (perform o (this0, σ)) as [this' σ']. by apply IH. }
  split; [exact Htyped|].
  apply have_quaternions_of_Transformation in Htyped as [origs Horigs].
  unfold exportJson, map_throwing. rewrite Horigs.
  rewrite (map_throwing_from_fmap _ (fmap (M:=list) of_Transformation)
             (fmap (M:=list) pose7)); cycle 1.
  { intros row _. apply (map_throwing_from_fmap _ of_Transformation pose7).
    intros; apply flatten_of_Transformation. }
  pose proof (map_throwing_from_Returns
                (fun (trans : TransformationObj num) (_ : nat) => flatten trans)
                0 (initial_transformations this)) as Hreturns.
  pose proof (map_throwing_from_TypeError
                (fun (trans : TransformationObj num) (_ : nat) => flatten trans)
                0 (initial_transformations this)) as Hthrows.
  destruct (map_throwing_from _ 0 (initial_transformations this))
    as [gt|e] eqn:Hgt; cbn.
  - assert (Forall has_quaternion (initial_transformations this)) as Hinit.
    { apply Forall_lookup. intros idx o Ho. apply flatten_Returns.
      by apply (proj1 Hreturns (ex_intro _ gt eq_refl) idx o). }
    split; [split; [done | by eexists]|]. done.
  - assert (e = TypeError) as ->.
    { eapply Hthrows; [|done]. intros a i e'. apply flatten_TypeError. }
    split; [|done]. split; [by intros [doc [=]]|].
    intros Hinit. exfalso.
    destruct (proj2 Hreturns) as [out Hout]; [|done].
    intros idx o Ho. apply flatten_Returns.
    by eapply Forall_lookup_1.
Qed.

End Misfits.

(** ** The two histories tell the same story *)

Section Denormalize.
Context {num : Type} `{ExactArithmetic num}.
Implicit Types this : AssembleTask num.
Local Open Scope num_scope.

Add Ring num_ring_denormalize : exact_ring.

Lemma denormalize (raw init : Transformation num) :
  unit_norm (quaternion init) ->
  applyTransformation (applyTransformation raw (inverse init)) init = raw.
Proof.
  unfold unit_norm. intros Hunit.
  destruct raw as [[[a b] c] [[[w x] y] z]],
    init as [[[a' b'] c'] [[[w' x'] y'] z']].
  cbn in Hunit |- *.
  repeat match goal with
         | |- mkTransformation _ _ = mkTransformation _ _ => f_equal
         | |- (_, _) = (_, _) => f_equal
         end; try ring.
  - transitivity ((w' * w' + x' * x' + y' * y' + z' * z') * w); [ring|].
    rewrite Hunit. ring.
  - transitivity ((w' * w' + x' * x' + y' * y' + z' * z') * x); [ring|].
    rewrite Hunit. ring.
  - transitivity ((w' * w' + x' * x' + y' * y' + z' * z') * y); [ring|].
    rewrite Hunit. ring.
  - transitivity ((w' * w' + x' * x' + y' * y' + z' * z') * z); [ring|].
    rewrite Hunit. ring.
Qed.

(** X17. The normalized history and the raw history of a recorded step
    determine each other through the initial transformations: when these
    have unit quaternions, each pose recorded in [transformations] by a
    "transformation" payload, composed with the fragment's initial
    transformation, is the pose recorded at the same place in
    [originalTransformations]. *)
Theorem recorded_step_denormalizes this
    (translation : list (Vec3 num)) (rotation : list (Quat num))
    (step iter : Z) (inits : list (Transformation num)) :
  initial_transformations this = of_Transformation <$> inits ->
  (length translation <= length inits)%nat ->
  (length translation <= length rotation)%nat ->
  Forall (fun init => unit_norm (quaternion init)) inits ->
  let this' :=
    (handle_msg (msg_data [transformation translation rotation step iter])
       this).1.1 in
  exists normalized recorded,
    transformations this' = transformations this ++ [normalized] /\
    originalTransformations this'
    = originalTransformations this ++ [recorded] /\
    length normalized = length translation /\
    forall idx pose,
      normalized !! idx = Some pose ->
      exists init,
        inits !! idx = Some init /\
        recorded !! idx
        = Some (of_Transformation (applyTransformation pose init)).
Proof.
  intros Hinits Hlen_init Hlen_rot Hunit. cbn zeta.
  cbn [handle_msg lookup list_lookup handle_payload]. cbn [list_lookup].
  unfold map_throwing. rewrite Hinits.
  pose proof (normalized_poses_from translation rotation [] inits [])
    as Hmap.
  cbn [app length] in Hmap. rewrite Hmap by done.
  rewrite raw_poses_zip by done. cbn [fst].
  eexists _, _. split; [reflexivity|]. split; [reflexivity|].
  split.
  { rewrite !length_zip_with. lia. }
  intros idx pose Hpose.
  rewrite lookup_zip_with in Hpose.
  rewrite lookup_zip_with in Hpose.
  destruct (translation !! idx) as [trans|] eqn:Htrans; [|done].
  destruct (rotation !! idx) as [rot|] eqn:Hrot; [|done].
  destruct (inits !! idx) as [init|] eqn:Hinit; [|done].
  cbn in Hpose. injection Hpose as <-.
  exists init. split; [done|].
  rewrite list_lookup_fmap, lookup_zip_with, Htrans, Hrot. cbn.
  rewrite denormalize; [done|].
  exact (Forall_lookup_1 _ _ _ _ Hunit Hinit).
Qed.

End Denormalize.

(** ** The scale of the scene *)

Section Scale.
Context {num : Type} `{OrderedNumber num}.
Implicit Types this : AssembleTask num.






End Scale.

Section Loading.
Context {num : Type} `{Number num}.
Implicit Types this : AssembleTask num.


Lemma setObject_slots (index : nat) (obj : meshObject num) this :
  _meshObj (setObject index obj this).1.1
  = array_assign slot_hole (_meshObj this) index (slot_obj obj).
Proof. unfold setObject. by destruct (forallb _ _). Qed.

Lemma perform_keeps_slots (o : operation num) this (σ : store) :
  loaded [o] = [] -> _meshObj (perform o (this, σ)).1 = _meshObj this.
Proof.
  destruct o as [settings|msg|step|index obj|name]; cbn; [| | |done|done].
  - intros _. unfold startAssemble_open.
    destruct (in_flight (status this)); [done|].
    by destruct (σ !! settings).
  - intros _.
    destruct msg as [stage|data|]; cbn [handle_msg]; [| |done].
    + unfold handle_status.
      by destruct (String.eqb stage "pending"),
        (String.eqb stage "generating"), (String.eqb stage "error"),
        (String.eqb stage "complete").
    + destruct (data !! 0%nat) as [d|]; [|done].
      destruct d as [d|pcs itrans irot|d|translation rotation step iter|d];
        cbn [handle_payload]; [|done| | |done].
      * by destruct (decide (d <> meshScale this)).
      * by destruct (length (transformations this) <=? 5)%nat.
      * by destruct (map_throwing _ translation).
  - intros _. unfold set_currentStep. by destruct (_ || _).
Qed.

Lemma perform_slots (o : operation num) this (σ : store) (n : nat)
    (L : list nat) :
  Forall (fun i => (i < n)%nat) (loaded [o]) ->
  slots_filled n L this ->
  slots_filled n (L ++ loaded [o]) (perform o (this, σ)).1.
Proof.
  intros Hindex [Hlen Hnull]. unfold slots_filled.
  destruct (loaded [o]) as [|index rest] eqn:Hloaded.
  { rewrite (right_id_L [] (++)), perform_keeps_slots by done. by split. }
  destruct o as [settings|msg|step|index' obj|name]; try discriminate Hloaded.
  cbn in Hloaded. injection Hloaded as <- <-.
  cbn [perform fst]. rewrite setObject_slots.
  apply Forall_cons in Hindex as [Hindex _].
  unfold array_assign.
  destruct (Nat.ltb_spec index' (length (_meshObj this))); [|lia].
  rewrite length_insert. split; [done|].
  intros i Hi. rewrite elem_of_app, list_elem_of_singleton.
  destruct (decide (index' = i)) as [->|Hne].
  - rewrite list_lookup_insert_eq by lia. split; [done|]. intros Hno.
    destruct Hno. by right.
  - rewrite list_lookup_insert_ne by done. rewrite (Hnull i Hi).
    split; [intros Hno [?|?]; done | intros Hno ?; apply Hno; by left].
Qed.

Lemma loaded_cons (o : operation num) (ops : list (operation num)) :
  loaded (o :: ops) = loaded [o] ++ loaded ops.
Proof. unfold loaded. cbn. by destruct o. Qed.

Lemma operations_slots (ops : list (operation num)) this (σ : store)
    (n : nat) (L : list nat) :
  Forall (fun i => (i < n)%nat) (loaded ops) ->
  slots_filled n L this ->
  slots_filled n (L ++ loaded ops)
    (foldl (fun w o => perform o w) (this, σ) ops).1.
Proof.
  revert this σ L. induction ops as [|o ops IH]; intros this σ L Hin Hslots.
  { unfold loaded. cbn [omap list_omap]. by rewrite (right_id_L [] (++)). }
  rewrite loaded_cons in Hin |- *. apply Forall_app in Hin as [Ho Hops].
  cbn [foldl]. pose proof (perform_slots o this σ n L Ho Hslots) as Hnext.
  destruct (perform o (this, σ)) as [this' σ'].
  rewrite (assoc_L (++)). by apply IH.
Qed.

(** X19. The scale is announced when the last fragment is loaded, not
    before: on a task constructed from [n] files, a call of [setObject]
    for a fragment emits [meshScale] exactly when every fragment has had
    its object given, by this call or by an earlier one, whatever else
    happened in between. *)
Theorem scale_announced_when_all_loaded (files : list File)
    (paths : list string) this0 (σ : store) (ops : list (operation num))
    (index : nat) (obj : meshObject num) :
  AssembleTask_new files paths = Returns this0 ->
  Forall (fun i => (i < length files)%nat) (loaded ops) ->
  (index < length files)%nat ->
  let this := (foldl (fun w o => perform o w) (this0, σ) ops).1 in
  (setObject index obj this).1.2 <> [] <->
  forall i, (i < length files)%nat -> i = index \/ i ∈ loaded ops.
Proof.
  intros Hnew Hloaded Hindex this.
  assert (slots_filled (length files) [] this0) as Hstart.
  { unfold AssembleTask_new in Hnew.
    repeat (match type of Hnew with
            | (if ?c then _ else _) = _ => destruct c
            end; try discriminate Hnew).
    injection Hnew as <-. split; cbn; [apply length_replicate|].
    intros i Hi. rewrite lookup_replicate_2 by done.
    split; [intros _; apply not_elem_of_nil | done]. }
  pose proof (operations_slots ops this0 σ _ [] Hloaded Hstart) as Hslots.
  fold this in Hslots. cbn [app] in Hslots.
  assert (Forall (fun i => (i < length files)%nat)
            (loaded [call_setObject index obj])) as Hthis.
  { by repeat constructor. }
  pose proof (perform_slots (call_setObject index obj) this σ _ _
                Hthis Hslots) as [Hlen Hnull].
  cbn [perform fst] in Hlen, Hnull.
  change (loaded [call_setObject index obj]) with [index] in Hnull.
  assert ((setObject index obj this).1.2 <> []
          <-> forallb not_null (_meshObj (setObject index obj this).1.1)
              = true) as ->.
  { rewrite setObject_slots. unfold setObject. cbn [_meshObj set__meshObj].
    by destruct (forallb _ _). }
  rewrite forallb_forall. split.
  - intros Hall i Hi.
    destruct (decide (i = index)) as [->|Hne]; [by left|]. right.
    destruct (decide (i ∈ loaded ops)) as [Hin|Hout]; [done|]. exfalso.
    assert (_meshObj (setObject index obj this).1.1 !! i = Some slot_null)
      as Hslot.
    { apply Hnull; [done|]. rewrite elem_of_app, list_elem_of_singleton.
      by intros [?|?]. }
    apply list_elem_of_lookup_2, list_elem_of_In, Hall in Hslot. done.
  - intros Hall s Hs. destruct s; [|done|done]. exfalso.
    apply list_elem_of_In, list_elem_of_lookup_1 in Hs as [i Hi].
    assert (i < length files)%nat as Hlt.
    { rewrite <- Hlen. by eapply lookup_lt_Some. }
    apply Hnull in Hi; [|done]. apply Hi.
    rewrite elem_of_app, list_elem_of_singleton.
    destruct (Hall i Hlt); auto.
Qed.

End Loading.

(** ** Colours *)

Lemma COLORS_NoDup : NoDup COLORS.
Proof. by apply (bool_decide_unpack _). Qed.

Lemma colour_lookup (i : Z) :
  0 <= i ->
  js_index COLORS (Z.rem i (Z.of_nat (length COLORS)))
  = COLORS !! Z.to_nat (i mod 10).
Proof.
  intros Hi. change (Z.of_nat (length COLORS)) with 10.
  rewrite Z.rem_mod_nonneg by lia. unfold js_index.
  destruct (Z.ltb_spec (i mod 10) 0); [|done].
  pose proof (Z.mod_pos_bound i 10). lia.
Qed.

(** X20. [getMesh] returns for the indices of the files and throws a
    [TypeError] for every other; the mesh of a fragment has a colour of
    [COLORS]; the colours repeat with period ten; and two fragments whose
    indices differ by less than ten get different colours. The meshes of
    the assembly scene are always made, one for each file. *)
Theorem fragment_colours {num} (this : AssembleTask num) (i : Z) :
  ((exists m, getMesh i this = Returns m) <->
   0 <= i < Z.of_nat (length (meshesFile this))) /\
  (forall e, getMesh i this = Throws e -> e = TypeError) /\
  (forall m,
     getMesh i this = Returns m ->
     MeshProps.idx m = i /\
     Some (MeshProps.blob m) = meshesFile this !! Z.to_nat i /\
     (exists c, MeshProps.color m = Some c /\ c ∈ COLORS) /\
     (forall m',
        getMesh (i + 10) this = Returns m' ->
        MeshProps.color m' = MeshProps.color m) /\
     (forall j m',
        i < j < i + 10 ->
        getMesh j this = Returns m' ->
        MeshProps.color m' <> MeshProps.color m)) /\
  exists ms,
    meshes this = Returns ms /\ length ms = length (meshesFile this).
Proof.
  assert (forall k m, getMesh k this = Returns m ->
            0 <= k < Z.of_nat (length (meshesFile this)) /\
            Some (MeshProps.blob m) = meshesFile this !! Z.to_nat k /\
            MeshProps.idx m = k /\
            MeshProps.color m = COLORS !! Z.to_nat (k mod 10)) as Hmesh.
  { intros k m. unfold getMesh, js_index.
    destruct (Z.ltb_spec k 0) as [Hk|Hk]; [done|].
    destruct (meshesFile this !! Z.to_nat k) as [file|] eqn:Hfile; [|done].
    intros [= <-]. cbn. apply lookup_lt_Some in Hfile.
    split; [lia|]. split; [done|]. split; [done|].
    by apply colour_lookup. }
  assert (forall k, 0 <= k -> (Z.to_nat (k mod 10) < length COLORS)%nat)
    as Hbound.
  { intros k Hk. pose proof (Z.mod_pos_bound k 10). cbn. lia. }
  assert (forall k, 0 <= k < Z.of_nat (length (meshesFile this)) ->
            exists m, getMesh k this = Returns m) as Hin.
  { intros k Hk. unfold getMesh, js_index.
    destruct (Z.ltb_spec k 0) as [Hneg|_]; [lia|].
    destruct (lookup_lt_is_Some_2 (meshesFile this) (Z.to_nat k)) as [f ->];
      [lia|]. by eexists. }
  split; [split; [intros [m Hm]; by apply (Hmesh _ _ Hm) | apply Hin]|].
  split.
  { unfold getMesh. by destruct (js_index (meshesFile this) i);
      intros e [= <-]. }
  split.
  - intros m Hm. destruct (Hmesh _ _ Hm) as (Hi & Hblob & Hidx & Hcolour).
    split; [done|]. split; [done|].
    destruct (lookup_lt_is_Some_2 COLORS (Z.to_nat (i mod 10))) as [c Hc];
      [apply Hbound; lia|].
    split; [exists c; split; [congruence | by eapply list_elem_of_lookup_2]|].
    split.
    + intros m' Hm'. destruct (Hmesh _ _ Hm') as (_ & _ & _ & Hcolour').
      rewrite Hcolour, Hcolour'. do 2 f_equal.
      replace (i + 10) with (i + 1 * 10) by lia. by rewrite Z.mod_add.
    + intros j m' Hj Hm'. destruct (Hmesh _ _ Hm') as (_ & _ & _ & Hcolour').
      rewrite Hcolour, Hcolour', Hc. intros Heq.
      pose proof (NoDup_lookup _ _ _ _ COLORS_NoDup Hc Heq) as Hsame.
      pose proof (Z.mod_pos_bound i 10). pose proof (Z.mod_pos_bound j 10).
      assert (i mod 10 = j mod 10) as Hmod by lia.
      pose proof (Z.div_mod i 10). pose proof (Z.div_mod j 10). lia.
  - unfold meshes, map_throwing, meshesList.
    destruct (proj2 (map_throwing_from_Returns
                       (fun (_ : File) index => getMesh (Z.of_nat index) this)
                       0 (meshesFile this))) as [ms Hms].
    + intros k file Hk. apply lookup_lt_Some in Hk. apply Hin. lia.
    + exists ms. split; [done|]. by eapply map_throwing_from_length.
Qed.

Lemma fragment_colours_witness :
  (exists m, getMesh 10 Scenario2.eleven_task = Returns m) /\
  (forall m m',
     getMesh 0 Scenario2.eleven_task = Returns m ->
     getMesh 10 Scenario2.eleven_task = Returns m' ->
     MeshProps.color m' = MeshProps.color m).
Proof.
  destruct (fragment_colours Scenario2.eleven_task 10) as ([_ Hin] & _).
  destruct (fragment_colours Scenario2.eleven_task 0)
    as (_ & _ & Hcolours & _).
  split.
  - apply Hin. vm_compute. split; [discriminate | reflexivity].
  - intros m m' Hm Hm'.
    destruct (Hcolours m Hm) as (_ & _ & _ & Hperiod & _).
    by apply Hperiod.
Defined.

(** ** Construction, and how a task is submitted *)

Section Submission.
Context {num : Type} `{Number num}.
Implicit Types this : AssembleTask num.

(** X21. Construction succeeds exactly when there are at least two files,
    the first file's extension is [obj] or [ply], and every file's name
    ends with that extension; every failure is one of the three errors of
    the constructor. The task it makes is idle, at [-2], without history,
    of scale one, with one empty slot and one name for each file. In
    particular two or more files that all have the extension [obj], or all
    [ply], make a task. *)
Theorem constructor_outcome (files : list File) (paths : list string) :
  let meshType := extension (default ""%string (name <$> files !! 0%nat)) in
  ((exists this, AssembleTask_new (num:=num) files paths = Returns this) <->
   (2 <= length files)%nat /\
   (meshType = "obj"%string \/ meshType = "ply"%string) /\
   Forall (fun file => endsWith (name file) meshType = true) files) /\
  (forall e, AssembleTask_new (num:=num) files paths = Throws e ->
             InvalidInputError e) /\
  (forall this,
     AssembleTask_new files paths = Returns this ->
     status this = INIT /\ currentStep this = -2 /\
     transformations this = [] /\ originalTransformations this = [] /\
     initial_transformations this = [] /\ meshScale this = num_one /\
     _meshObj this = replicate (length files) slot_null /\
     pieces this = name <$> files /\
     meshesFile this = files /\ meshesFilePathOnServer this = paths) /\
  (forall type,
     (2 <= length files)%nat ->
     type = "obj"%string \/ type = "ply"%string ->
     Forall (fun file => extension (name file) = type) files ->
     exists this, AssembleTask_new (num:=num) files paths = Returns this).
Proof.
  cbn zeta.
  assert (forall e, AssembleTask_new (num:=num) files paths = Throws e ->
                    InvalidInputError e) as Hinvalid.
  { intros e Hnew. unfold AssembleTask_new, InvalidInputError in *.
    repeat (match type of Hnew with
            | (if ?c then _ else _) = _ => destruct c
            end; try discriminate Hnew);
      injection Hnew as <-; auto. }
  split; [|split; [exact Hinvalid|split]].
  - destruct (AssembleTask_new (num:=num) files paths) as [this|e] eqn:Hnew.
    + pose proof (AssembleTask_new_throws (num:=num) files paths) as Hthrows.
      cbn zeta in Hthrows. rewrite Hnew in Hthrows.
      split; [|by eexists]. intros _.
      destruct (Nat.lt_ge_cases (length files) 2) as [Hlt|Hge].
      { destruct (proj2 Hthrows) as (e & [=] & _). by left. }
      split; [done|]. split.
      * destruct (decide
                    (extension (default ""%string (name <$> files !! 0%nat))
                     = "obj"%string)) as [?|Hobj]; [by left|].
        destruct (decide
                    (extension (default ""%string (name <$> files !! 0%nat))
                     = "ply"%string)) as [?|Hply]; [by right|].
        destruct (proj2 Hthrows) as (e & [=] & _).
        right. left. by intros [?|?].
      * apply Forall_forall. intros file Hfile.
        destruct (endsWith (name file) _) eqn:Hends; [done|].
        destruct (proj2 Hthrows) as (e & [=] & _).
        right. right. apply Exists_exists. eauto.
    + pose proof (AssembleTask_new_throws (num:=num) files paths) as Hthrows.
      cbn zeta in Hthrows.
      split; [by intros [this [=]]|]. intros (Hlen & Htype & Hall).
      destruct (proj1 Hthrows) as [Hlt|[Hty|Hex]]; [|lia|done|].
      { exists e. split; [done|]. by apply Hinvalid. }
      apply Exists_exists in Hex as (file & Hfile & Hends).
      rewrite Forall_forall in Hall. specialize (Hall file Hfile).
      congruence.
  - intros this Hnew. unfold AssembleTask_new in Hnew.
    repeat (match type of Hnew with
            | (if ?c then _ else _) = _ => destruct c
            end; try discriminate Hnew).
    by injection Hnew as <-.
  - intros type Hlen Htype Hfiles.
    destruct (AssembleTask_new_uniform (num:=num) files paths type
                Hlen Htype Hfiles) as (this & Hthis & _).
    by exists this.
Qed.

(** X22. How a task is submitted is settled at construction: a task made
    without server paths, as from an upload, always sends its files and
    an empty list of paths, for the constructor has seen to it that there
    are files; a task made from the gallery always sends [undefined] and
    the paths of its files; and so does any task given as many paths as
    files. No operation changes this. *)
Theorem submission_mode (files : list File) (paths : list string) this0
    (σ0 : store) (ops : list (operation num)) (settings : ref) s :
  AssembleTask_new files paths = Returns this0 ->
  let this := (foldl (fun w o => perform o w) (this0, σ0) ops).1 in
  let σ := (foldl (fun w o => perform o w) (this0, σ0) ops).2 in
  ~ running (status this) ->
  σ !! settings = Some s ->
  let submit := (startAssemble_open settings this σ).1.2 !! 2%nat in
  (length paths = length files ->
   submit = Some (Submit "/inference" None paths (meshType this0) settings))
  /\
  (length paths <> length files ->
   submit
   = Some (Submit "/inference" (Some files) [] (meshType this0) settings))
  /\
  (paths = [] ->
   submit
   = Some (Submit "/inference" (Some files) [] (meshType this0) settings))
  /\
  (forall folder,
     paths = gallery_path folder <$> (name <$> files) ->
     submit
     = Some (Submit "/inference" None paths (meshType this0) settings)).
Proof.
  intros Hnew this σ Hrun Hs submit.
  pose proof (pieces_are_file_names files paths this0 σ0 ops Hnew)
    as [_ Hfiles].
  fold this in Hfiles.
  assert (meshesFilePathOnServer this = paths /\
          meshType this = meshType this0 /\ (2 <= length files)%nat)
    as (Hpaths & Htype & Hlen).
  { assert (meshesFilePathOnServer this0 = paths /\
            (2 <= length files)%nat) as [Hp0 Hl0].
    { unfold AssembleTask_new in Hnew.
      destruct (Nat.ltb_spec (length files) 2); [done|].
      repeat (match type of Hnew with
              | (if ?c then _ else _) = _ => destruct c
              end; try discriminate Hnew).
      by injection Hnew as <-. }
    split; [|split; [|done]].
    - rewrite <- Hp0. subst this. clear. revert this0 σ0.
      induction ops as [|o ops IH]; intros this0 σ0; [done|]. cbn [foldl].
      pose proof (perform_same_files o this0 σ0) as (_ & Hp & _).
      destruct (perform o (this0, σ0)) as [this' σ']. cbn [fst] in Hp.
      by rewrite IH.
    - subst this. clear. revert this0 σ0.
      induction ops as [|o ops IH]; intros this0 σ0; [done|]. cbn [foldl].
      pose proof (perform_same_files o this0 σ0) as (_ & _ & Ht & _).
      destruct (perform o (this0, σ0)) as [this' σ']. cbn [fst] in Ht.
      by rewrite IH. }
  assert (submit
          = Some (if (length paths =? length files)%nat
                  then Submit "/inference" None paths (meshType this0)
                         settings
                  else Submit "/inference" (Some files) []
                         (meshType this0) settings)) as ->.
  { subst submit. apply in_flight_not_running in Hrun.
    unfold startAssemble_open. rewrite Hrun, Hs. cbn.
    rewrite Hpaths, Hfiles, Htype. by destruct (_ =? _)%nat. }
  split; [by intros ->%Nat.eqb_eq|].
  split; [by intros ->%Nat.eqb_neq|].
  split.
  - intros ->. destruct (Nat.eqb_spec (length (@nil string)) (length files))
      as [Heq|_]; [cbn in Heq; lia | done].
  - intros folder ->. by rewrite !length_fmap, Nat.eqb_refl.
Qed.

End Submission.

(** ** The names in the export *)

Lemma split_length (sep : ascii) (s : string) :
  length (split sep s) = S (occurrences sep s).
Proof.
  induction s as [|c s IH]; [done|]. cbn.
  destruct (Ascii.eqb c sep); cbn; [by rewrite IH|].
  destruct (split sep s) as [|seg segs]; [done|]. exact IH.
Qed.

Lemma split_without (sep : ascii) (s : string) :
  occurrences sep s = 0%nat -> split sep s = [s].
Proof.
  induction s as [|c s IH]; [done|]. cbn.
  destruct (Ascii.eqb c sep); cbn; [done|]. intros Hs. by rewrite IH.
Qed.

Lemma split_at (sep : ascii) (s1 s2 : string) :
  occurrences sep s1 = 0%nat ->
  split sep (s1 +:+ String sep s2) = s1 :: split sep s2.
Proof.
  induction s1 as [|c s1 IH]; simpl.
  - intros _. by rewrite Ascii.eqb_refl.
  - destruct (Ascii.eqb c sep); [done|]. intros Hs. by rewrite IH.
Qed.

Lemma occurrences_append (c : ascii) (s1 s2 : string) :
  occurrences c (s1 +:+ s2) = (occurrences c s1 + occurrences c s2)%nat.
Proof. induction s1 as [|c' s1 IH]; simpl; [done|]. rewrite IH. lia. Qed.

Lemma occurrences_here (c : ascii) (s : string) :
  occurrences c (String c s) = S (occurrences c s).
Proof. cbn [occurrences]. by rewrite Ascii.eqb_refl. Qed.

Lemma join_cons (x y : string) (l : list string) :
  join "," (x :: y :: l) = (x +:+ String "," (join "," (y :: l)))%string.
Proof. reflexivity. Qed.

Lemma join_commas (names : list string) :
  names <> [] ->
  occurrences "," (join "," names)
  = (foldr (fun n k => occurrences "," n + k) 0 names + length names - 1)%nat.
Proof.
  induction names as [|x [|y l] IH]; [done| |]; intros _.
  - cbn. lia.
  - rewrite join_cons, occurrences_append, occurrences_here.
    rewrite IH by done. cbn [foldr length]. lia.
Qed.

Lemma split_join (names : list string) :
  names <> [] ->
  Forall (fun n => occurrences "," n = 0%nat) names ->
  split "," (join "," names) = names.
Proof.
  intros Hne Hall. induction Hall as [|x names Hx Hall IH]; [done|].
  destruct names as [|y l]; [cbn; by apply split_without|].
  rewrite join_cons, split_at by done. by rewrite IH.
Qed.

(** X23. The [pieces] entry of the export, the file names joined by
    commas, gives the names back when it is split at the commas exactly
    when there is a name and no name contains a comma: the entry of no
    names at all splits into one empty name, and in general the split
    has one more entry for each comma in a name. *)
Theorem pieces_round_trip (names : list string) :
  (split "," (join "," names) = names <->
   names <> [] /\ Forall (fun n => occurrences "," n = 0%nat) names) /\
  split "," (join "," []) = [""]%string /\
  length (split "," (join "," names))
  = (Nat.max 1 (length names)
     + foldr (fun n k => occurrences "," n + k) 0 names)%nat.
Proof.
  assert (length (split "," (join "," names))
          = (Nat.max 1 (length names)
             + foldr (fun n k => occurrences "," n + k) 0 names)%nat) as Hlen.
  { destruct names as [|n names]; [reflexivity|].
    rewrite split_length, join_commas by done. cbn [length foldr]. lia. }
  split; [|split; [reflexivity | exact Hlen]]. split.
  - intros Heq. rewrite Heq in Hlen.
    assert (names <> []) as Hnames.
    { intros ->. cbn in Heq. discriminate Heq. }
    split; [exact Hnames|].
    assert (foldr (fun n k => occurrences "," n + k) 0 names = 0)%nat
      as Hzero by (destruct names; [done | cbn [length] in Hlen; lia]).
    clear -Hzero. induction names as [|n names IH]; [constructor|].
    cbn in Hzero. constructor; [lia|]. apply IH. lia.
  - intros [Hnames Hall]. by apply split_join.
Qed.

Lemma pieces_round_trip_witness :
  split "," (join "," ["a.obj"; "b.obj"]%string) = ["a.obj"; "b.obj"]%string.
Proof.
  apply (pieces_round_trip ["a.obj"; "b.obj"]%string).
  split; [discriminate | repeat constructor].
Defined.

(** ** The application around the task *)

(** X24. The consent flag survives its trip through session storage, and
    only the exact string [false] reads as a refusal: any other stored
    value reads as consent. Data collection is switched off in a request
    only when the flag is [false]; a flag not yet set sends [true]. *)
Theorem consent_round_trip :
  (forall v : option bool, deserializer (serializer v) = default true v) /\
  (forall s, deserializer s = false <-> s = "false"%string) /\
  (forall s, serializer (Some (deserializer s)) = s <->
             s = "true"%string \/ s = "false"%string) /\
  (forall allow, dataCollection_sent allow = false <-> allow = Some false).
Proof.
  assert (forall s, deserializer s = false <-> s = "false"%string) as Hfalse.
  { intros s. unfold deserializer.
    destruct (String.eqb_spec s "false"); split; done. }
  split; [by intros [[|]|]|]. split; [exact Hfalse|]. split.
  - intros s. destruct (deserializer s) eqn:Hs.
    + cbn. split; [auto|]. intros [->| ->]; [done|].
      by destruct (proj2 (Hfalse "false"%string) eq_refl).
    + apply Hfalse in Hs as ->. cbn. split; auto.
  - intros [[|]|]; cbn; split; done.
Qed.

Lemma datasets_from (acc entities : list string) :
  let result :=
    foldl (fun acc dataset =>
             if bool_decide (dataset ∈ acc) then acc else acc ++ [dataset])
      acc entities in
  (NoDup acc -> NoDup result) /\
  (forall d, d ∈ result <-> d ∈ acc \/ d ∈ entities) /\
  (NoDup (acc ++ entities) -> result = acc ++ entities).
Proof.
  revert acc. induction entities as [|d entities IH]; intros acc; cbn.
  { split; [done|]. split; [|by rewrite (right_id_L [] (++))].
    intros d. rewrite elem_of_nil. tauto. }
  destruct (bool_decide_reflect (d ∈ acc)) as [Hin|Hout].
  - destruct (IH acc) as (Hnd & Hel & Heq). split; [done|]. split.
    + intros d'. rewrite Hel, elem_of_cons.
      split; [tauto|]. intros [?|[->|?]]; auto.
    + intros Hnodup. exfalso. apply NoDup_app in Hnodup as (_ & Hdisj & _).
      apply (Hdisj d Hin). by left.
  - destruct (IH (acc ++ [d])) as (Hnd & Hel & Heq). split.
    + intros Hacc. apply Hnd, NoDup_app. split; [done|].
      split; [|apply NoDup_singleton].
      by intros d' Hd' ->%list_elem_of_singleton.
    + split.
      * intros d'. rewrite Hel, elem_of_app, list_elem_of_singleton,
          elem_of_cons. tauto.
      * intros Hnodup. rewrite Heq; by rewrite <- (assoc_L (++)).
Qed.

(** X25. The gallery shows one tab for each dataset: the list of tabs has
    no dataset twice, has every dataset of the entities and no other, and
    is the list of the entities' datasets itself when these are already
    distinct. *)
Theorem datasets_distinct (entities : list string) :
  NoDup (datasets entities) /\
  (forall d, d ∈ datasets entities <-> d ∈ entities) /\
  (NoDup entities -> datasets entities = entities).
Proof.
  destruct (datasets_from [] entities) as (Hnd & Hel & Heq).
  split; [apply Hnd, NoDup_nil_2|]. split; [|exact Heq].
  intros d. unfold datasets. rewrite Hel, elem_of_nil. tauto.
Qed.

Section Trail.
Context {num A : Type} `{Number num}.
Implicit Types this : AssembleTask num.

(** X26. With the cursor in its domain, the trail of a fragment has one
    point for each recorded step up to the cursor when the cursor is at a
    recorded step, none at [-1], and at most one at [-2]; so it is drawn
    exactly when [showTrail] is set and the cursor is at step one or
    later. The trail is computed whenever every recorded step has a pose
    for the fragment. *)
Theorem trail_up_to_cursor (position : Transformation num -> A) (idx : Z)
    this :
  cursor_in_domain this ->
  ((forall row, row ∈ transformations this -> is_Some (js_index row idx)) ->
   exists points, updateTrailPoints position idx this = Returns points) /\
  forall points,
    updateTrailPoints position idx this = Returns points ->
    Z.of_nat (length points)
    = (if currentStep this =? -2
       then Z.min 1 (Z.of_nat (length (transformations this)))
       else currentStep this + 1) /\
    (forall showTrail,
       trail_drawn points showTrail = true <->
       showTrail = true /\ 1 <= currentStep this).
Proof.
  unfold cursor_in_domain, updateTrailPoints, currentStep, map_throwing.
  intros Hdom. split.
  - intros Hrows. apply map_throwing_from_Returns.
    intros j t Ht. apply lookup_take_Some in Ht as [Ht _].
    unfold getTransformations in Ht. rewrite list_lookup_fmap in Ht.
    destruct (transformations this !! j) as [row|] eqn:Hrow; [|done].
    cbn in Ht. injection Ht as <-.
    destruct (Hrows row) as [pose ->]; [by eapply list_elem_of_lookup_2|].
    by eexists.
  - intros points Hpoints. apply map_throwing_from_length in Hpoints.
    rewrite length_take in Hpoints. unfold getTransformations in Hpoints.
    rewrite length_fmap in Hpoints.
    assert (Z.of_nat (length points)
            = (if _currentStep this =? -2
               then Z.min 1 (Z.of_nat (length (transformations this)))
               else _currentStep this + 1)) as Hlen.
    { destruct (Z.eqb_spec (_currentStep this) (-2)) as [Heq|Hne]; lia. }
    split; [exact Hlen|].
    intros showTrail. unfold trail_drawn.
    rewrite andb_true_iff, Nat.ltb_lt.
    destruct (Z.eqb_spec (_currentStep this) (-2)) as [Heq|Hne];
      split; intros [? ?]; split; try done; lia.
Qed.

End Trail.

(** ** The further properties at work on the scenario *)

Lemma multiplyQuaternions_assoc_unit_witness :
  unit_norm
    (multiplyQuaternions (quaternion Scenario.third_turn)
       (quaternion Scenario.third_turn)).
Proof.
  apply (multiplyQuaternions_assoc_unit (quaternion Scenario.third_turn)
           (quaternion Scenario.third_turn) (quaternion Scenario.third_turn));
    apply Qcanon.Qc_is_canon; reflexivity.
Defined.

Lemma rotateVector_action_witness :
  length2 (rotateVector (quaternion Scenario.third_turn)
             (translation Scenario.third_turn))
  = length2 (translation Scenario.third_turn).
Proof.
  apply (rotateVector_action (quaternion Scenario.third_turn)
           (quaternion Scenario.third_turn)
           (translation Scenario.third_turn)).
  apply Qcanon.Qc_is_canon. reflexivity.
Defined.


Lemma inverse_antihomomorphism_witness :
  inverse (inverse Scenario.third_turn) = Scenario.third_turn /\
  inverse (applyTransformation Scenario.third_turn Scenario.third_turn)
  = applyTransformation (inverse Scenario.third_turn)
      (inverse Scenario.third_turn).
Proof.
  apply (inverse_antihomomorphism Scenario.third_turn Scenario.third_turn).
  apply Qcanon.Qc_is_canon. reflexivity.
Defined.

Lemma normalized_then_initial_witness :
  applyTransformation
    (applyTransformation (inverse Scenario.third_turn)
       (inverse Scenario.third_turn))
    Scenario.third_turn
  = inverse Scenario.third_turn.
Proof.
  apply (normalized_then_initial (inverse Scenario.third_turn)
           Scenario.third_turn).
  apply Qcanon.Qc_is_canon. reflexivity.
Defined.

Lemma total_fixed_for_the_run_witness :
  _totalSteps
    (startAssemble 1%positive Scenario.exchange Scenario.fresh
       Scenario.σ0).1.1.1
  = 20 * 6 + 1.
Proof.
  apply (total_fixed_for_the_run 1%positive Scenario.exchange Scenario.fresh
           Scenario.σ0 Scenario.settings).
  - intros [Hrun|[Hrun|Hrun]]; discriminate Hrun.
  - reflexivity.
Defined.

Lemma histories_append_only_witness :
  getTransformation 1 (Some 0)
    (consume [Scenario2.step_message] Scenario.completed).1.1
  = getTransformation 1 (Some 0) Scenario.completed.
Proof.
  apply (histories_append_only [Scenario2.step_message] Scenario.completed).
  vm_compute. split; [discriminate | reflexivity].
Defined.

Lemma fracture_window_stays_closed_witness :
  fractureSurfaces
    (consume [Scenario2.late_segmentation; Scenario2.step_message]
       Scenario.six_steps).1.1
  = fractureSurfaces Scenario.six_steps.
Proof.
  apply (fracture_window_stays_closed
           [Scenario2.late_segmentation; Scenario2.step_message]
           Scenario.six_steps).
  vm_compute. lia.
Defined.

Lemma unfinished_run_blocks_restart_witness :
  running
    (status
       (startAssemble 1%positive Scenario2.unfinished Scenario.fresh
          Scenario.σ0).1.1.1).
Proof.
  apply (unfinished_run_blocks_restart 1%positive Scenario2.unfinished
           Scenario.fresh Scenario.σ0 Scenario.settings).
  - intros [Hrun|[Hrun|Hrun]]; discriminate Hrun.
  - reflexivity.
  - vm_compute. repeat constructor; intros [Hend|Hend]; discriminate Hend.
Defined.

Lemma getTransformation_throws_witness :
  getTransformation 0 (Some 5) Scenario.completed = Throws TypeError.
Proof.
  apply (getTransformation_throws 0 5 Scenario.completed).
  right. vm_compute. repeat split; try discriminate.
  intros [_ Hlt]. discriminate Hlt.
Defined.

Lemma transformation_message_fits_witness :
  handle_msg Scenario2.step_message Scenario.requested
  = (Scenario.requested, [], Some TypeError).
Proof.
  apply (transformation_message_fits Scenario.requested
           [(1, 2, 3); (4, 5, 6)] [(0, 0, 1, 0); (1, 0, 0, 0)] 2 0).
  - reflexivity.
  - discriminate.
Defined.

Lemma recorded_poses_well_formed_witness :
  Forall (Forall has_quaternion)
    (originalTransformations
       (foldl (fun w o => perform o w) (Scenario.fresh, Scenario.σ0)
          (call_startAssemble 1%positive
           :: (deliver <$> Scenario.exchange))).1).
Proof.
  apply (recorded_poses_well_formed Scenario.files [] Scenario.fresh
           Scenario.σ0
           (call_startAssemble 1%positive :: (deliver <$> Scenario.exchange))
           "demo").
  reflexivity.
Defined.

Lemma recorded_step_denormalizes_witness :
  exists normalized recorded,
    transformations
      (handle_msg Scenario2.step_message Scenario.with_input).1.1
    = transformations Scenario.with_input ++ [normalized] /\
    originalTransformations
      (handle_msg Scenario2.step_message Scenario.with_input).1.1
    = originalTransformations Scenario.with_input ++ [recorded] /\
    length normalized = 2%nat.
Proof.
  destruct (recorded_step_denormalizes Scenario.with_input
              [(1, 2, 3); (4, 5, 6)] [(0, 0, 1, 0); (1, 0, 0, 0)] 2 0
              Scenario.initial)
    as (normalized & recorded & Hn & Hr & Hlen & _).
  - reflexivity.
  - vm_compute. lia.
  - vm_compute. lia.
  - repeat constructor.
  - exists normalized, recorded. split; [exact Hn|]. split; [exact Hr|].
    exact Hlen.
Defined.


Lemma scale_announced_when_all_loaded_witness :
  (setObject 1 Scenario2.cube
     (foldl (fun w o => perform o w) (Scenario.fresh, Scenario.σ0)
        [call_setObject 0 Scenario2.cube]).1).1.2 <> [].
Proof.
  apply (scale_announced_when_all_loaded Scenario.files [] Scenario.fresh
           Scenario.σ0 [call_setObject 0%nat Scenario2.cube] 1
           Scenario2.cube).
  - reflexivity.
  - repeat constructor.
  - vm_compute. lia.
  - intros [|[|i]] Hi; [right; left | by left | vm_compute in Hi; lia].
Defined.

Lemma constructor_outcome_witness :
  exists this : AssembleTask Z,
    AssembleTask_new Scenario.files [] = Returns this.
Proof.
  pose proof (constructor_outcome (num:=Z) Scenario.files []) as Hnew.
  cbv zeta in Hnew. destruct Hnew as (_ & _ & _ & Hnew).
  apply Hnew with "obj"%string.
  - vm_compute. lia.
  - by left.
  - repeat constructor.
Defined.

Lemma submission_mode_witness :
  (startAssemble_open 1%positive
     (foldl (fun w o => perform o w) (Scenario.fresh, Scenario.σ0) []).1
     (foldl (fun w o => perform o w) (Scenario.fresh, Scenario.σ0) []).2).1.2
    !! 2%nat
  = Some (Submit "/inference" (Some Scenario.files) []
            (meshType Scenario.fresh) 1%positive).
Proof.
  pose proof (submission_mode Scenario.files [] Scenario.fresh Scenario.σ0 []
                1%positive Scenario.settings) as Hmode.
  cbv zeta in Hmode. destruct Hmode as (_ & _ & Hmode & _).
  - reflexivity.
  - intros [Hrun|[Hrun|Hrun]]; discriminate Hrun.
  - reflexivity.
  - apply Hmode. reflexivity.
Defined.

Lemma datasets_distinct_witness :
  datasets ["breaking_bad"; "fantastic_breaks"]%string
  = ["breaking_bad"; "fantastic_breaks"]%string.
Proof.
  destruct (datasets_distinct ["breaking_bad"; "fantastic_breaks"]%string)
    as (_ & _ & Hsame).
  apply Hsame. by apply (bool_decide_unpack _).
Defined.

Lemma trail_up_to_cursor_witness :
  exists points : list (Transformation Z),
    updateTrailPoints (fun t => t) 1 Scenario.completed = Returns points.
Proof.
  destruct (trail_up_to_cursor (fun t : Transformation Z => t) 1
              Scenario.completed) as [Hpoints _].
  - vm_compute. split; discriminate.
  - apply Hpoints. intros row Hrow. vm_compute in Hrow.
    repeat (apply elem_of_cons in Hrow as [->|Hrow]; [by eexists|]).
    by apply elem_of_nil in Hrow.
Defined.

Lemma applyTransformation_monoid_witness :
  applyTransformation
    (applyTransformation Scenario.third_turn (inverse Scenario.third_turn))
    Scenario.third_turn
  = applyTransformation Scenario.third_turn
      (applyTransformation (inverse Scenario.third_turn)
         Scenario.third_turn) /\
  applyTransformation identity Scenario.third_turn = Scenario.third_turn /\
  applyTransformation Scenario.third_turn identity = Scenario.third_turn.
Proof.
  apply (applyTransformation_monoid Scenario.third_turn
           (inverse Scenario.third_turn) Scenario.third_turn).
Defined.
